(** * knavalbattle.js: the message codec and the session state machine

    A shallow embedding of [src/message.ts] (the ten message classes, their
    [toXML] methods and [Message.fromXML]) and of the [NavalClient] class
    (the session: game state, fired-at list, pending fire requests), with
    the properties of the specification stated and proved over them.

    Modelling boundary.
    - JavaScript values are a small dynamic universe [JsVal]; numbers are
      integers ([Z], standing for the integers a JavaScript number holds
      exactly) plus [NaN].  Message fields hold [JsVal]s, because the
      casts of [fromXML] ([kmessage.fieldx as number]) check nothing at run
      time.
    - The scalar conversions of the JavaScript run time and of the XML
      library (number to text, text to value) are the fields of the class
      [Platform]; theorems that depend on them assume the laws
      [PlatformLaws] and nothing more.
    - The third-party XML library is modelled in [FastXmlParser] on documents
      as trees, not on their concrete syntax.
    - Application listeners are not modelled: what the client emits, writes
      and resolves is recorded in a trace of [Effect]s.  The client has one
      socket at a time. *)

From Stdlib Require Import String Ascii ZArith List Bool Lia DecimalString DecimalZ.
Import ListNotations.
Local Open Scope Z_scope.
Local Open Scope list_scope.
Set Warnings "-register-all".

Notation "s1 +++ s2" := (String.append s1 s2) (at level 60, right associativity).

(** ** JavaScript values *)

Inductive JsVal : Type :=
| VUndef
| VBool (b : bool)
| VNum (n : Z)
| VNaN
| VStr (s : string)
| VObj (fields : list (string * JsVal))
| VArr (items : list JsVal).

Inductive JsError : Type :=
| Error (message : string)
| TypeError.

(** The conversions between scalars and text that the program takes from
    its platform: the first three from the JavaScript run time, the last
    two from the XML parser (with [parseTagValue] and [trimValues] at their
    defaults and [parseAttributeValue] off, as [message.ts] configures it). *)
Class Platform : Type := {
  (** [String(n)], [n.toString()], [`${n}`] on a number *)
  Number_toString : Z -> string;
  (** [parseInt(s)]; [None] is [NaN] *)
  parseInt_string : string -> option Z;
  (** the number a string converts to in [==]; [None] when it is no integer *)
  StringToNumber : string -> option Z;
  (** the value the parser gives the text of a tag; [None] when the text is
      blank *)
  parseTextData : string -> option JsVal;
  (** the string the parser gives the text of an attribute *)
  parseAttrValue : string -> string
}.

(** What the theorems on the codec assume of a platform: what is written
    for an integer or a boolean reads back as that integer or boolean.
    [parseInt] is asked to give back the safe integers only
    ([Number.isSafeInteger]): a number from 1e21 on is written with an
    exponent, of which [parseInt] reads the digits before the point. *)
Class PlatformLaws (P : Platform) : Prop := {
  parseInt_Number_toString :
    forall n, - 2 ^ 53 < n < 2 ^ 53 ->
      parseInt_string (parseAttrValue (Number_toString n)) = Some n;
  Number_toString_not_true :
    forall n, Number_toString n <> "true"%string;
  parseTextData_number :
    forall n, parseTextData (Number_toString n) = Some (VNum n);
  parseTextData_true : parseTextData "true" = Some (VBool true);
  parseTextData_false : parseTextData "false" = Some (VBool false)
}.

Module Js.
Section WithPlatform.
Context {P : Platform}.

(** [String(v)] *)
Fixpoint ToString (v : JsVal) : string :=
  match v with
  | VUndef => "undefined"
  | VBool true => "true"
  | VBool false => "false"
  | VNum n => Number_toString n
  | VNaN => "NaN"
  | VStr s => s
  | VObj _ => "[object Object]"
  | VArr items =>
      String.concat ","
        (map (fun x => match x with VUndef => ""%string | _ => ToString x end) items)
  end.

(** [v ? .. : ..], [!v], [a && b] *)
Definition truthy (v : JsVal) : bool :=
  match v with
  | VUndef => false
  | VBool b => b
  | VNum n => negb (n =? 0)
  | VNaN => false
  | VStr s => negb (s =? "")%string
  | VObj _ => true
  | VArr _ => true
  end.

(** [v == n] for a number [n] *)
Definition loose_eq_num (v : JsVal) (n : Z) : bool :=
  match v with
  | VUndef => false
  | VBool b => (if b then 1 else 0) =? n
  | VNum m => m =? n
  | VNaN => false
  | VStr s => match StringToNumber s with Some m => m =? n | None => false end
  | VObj _ | VArr _ =>
      match StringToNumber (ToString v) with Some m => m =? n | None => false end
  end.

(** [parseInt(v)] *)
Definition parseInt (v : JsVal) : JsVal :=
  match parseInt_string (ToString v) with
  | Some n => VNum n
  | None => VNaN
  end.

Definition lookup (k : string) (fields : list (string * JsVal)) : JsVal :=
  match find (fun kv => (fst kv =? k)%string) fields with
  | Some kv => snd kv
  | None => VUndef
  end.

(** [v.k], [v[k]] for the property names of this program (none of them is
    a property of a string or of an array): a [TypeError] on [undefined],
    [undefined] on the other primitives. *)
Definition get (v : JsVal) (k : string) : JsError + JsVal :=
  match v with
  | VUndef => inl TypeError
  | VObj fields => inr (lookup k fields)
  | _ => inr VUndef
  end.

(** [v.toString()] *)
Definition toString (v : JsVal) : JsError + JsVal :=
  match v with
  | VUndef => inl TypeError
  | _ => inr (VStr (ToString v))
  end.

End WithPlatform.
End Js.
Import Js.

(** ** Fallible code: exceptions as the left summand *)

Definition bindE {A B : Type} (m : JsError + A) (f : A -> JsError + B) : JsError + B :=
  match m with
  | inl e => inl e
  | inr a => f a
  end.

Notation "x <- m ;; k" := (bindE m (fun x => k))
  (at level 61, m at next level, right associativity).

Fixpoint mapE {A B : Type} (f : A -> JsError + B) (l : list A) : JsError + list B :=
  match l with
  | [] => inr []
  | a :: l' => b <- f a ;; bs <- mapE f l' ;; inr (b :: bs)
  end.

(** ** The XML library: [XMLBuilder.build] and [XMLParser.parse]

    fast-xml-parser is not part of the repository.  Its two entry points are
    modelled on documents as trees: an element has a name, attributes, text
    and child elements.  The options are those of [message.ts]:
    [ignoreAttributes: false] and [attributeNamePrefix: '$'], everything
    else at its default (text node name ["#text"], no [isArray], boolean
    attributes suppressed by the builder and not allowed by the parser). *)
Module FastXmlParser.

Inductive Node : Type :=
| Element (name : string) (attrs : list (string * option string))
          (text : string) (children : list Node).

Definition Document : Type := list Node.

Definition nodeName (n : Node) : string :=
  match n with Element name _ _ _ => name end.

Definition textNodeName : string := "#text".
Definition attributeNamePrefix : string := "$".

Definition isAttribute (k : string) : bool := String.prefix attributeNamePrefix k.

Section WithPlatform.
Context {P : Platform}.

(** An attribute whose value is the text [true] is written without a
    value ([suppressBooleanAttributes]). *)
Definition buildAttrPair (k : string) (v : JsVal) : string * option string :=
  let val := ToString v in
  (substring 1 (String.length k - 1) k,
   if (val =? "true")%string then None else Some val).

Definition attrsOf (fields : list (string * JsVal)) : list (string * option string) :=
  flat_map (fun kv =>
    match snd kv with
    | VUndef => []
    | v => if isAttribute (fst kv) then [buildAttrPair (fst kv) v] else []
    end) fields.

Definition textOf (fields : list (string * JsVal)) : string :=
  String.concat ""
    (flat_map (fun kv =>
       match snd kv with
       | VUndef => []
       | v => if (fst kv =? textNodeName)%string then [ToString v] else []
       end) fields).

(** [j2x]: the elements written for property [key] holding [v].  An
    undefined value writes nothing, an array one element per item. *)
Fixpoint j2x (key : string) (v : JsVal) {struct v} : list Node :=
  match v with
  | VUndef => []
  | VObj fields =>
      [Element key (attrsOf fields) (textOf fields)
         ((fix tags (l : list (string * JsVal)) : list Node :=
             match l with
             | [] => []
             | (k, x) :: l' =>
                 (if isAttribute k || (k =? textNodeName)%string then []
                  else j2x k x) ++ tags l'
             end) fields)]
  | VArr items =>
      (fix each (l : list JsVal) : list Node :=
         match l with
         | [] => []
         | x :: l' => j2x key x ++ each l'
         end) items
  | _ => [Element key [] (ToString v) []]
  end.

Definition builder_build (o : JsVal) : Document :=
  match o with
  | VObj fields => flat_map (fun kv => j2x (fst kv) (snd kv)) fields
  | _ => []
  end.

(** A second element of the same name turns the property into an array;
    a single one stays a plain value. *)
Fixpoint addProperty (k : string) (v : JsVal) (obj : list (string * JsVal))
  : list (string * JsVal) :=
  match obj with
  | [] => [(k, v)]
  | (k', v') :: rest =>
      if (k' =? k)%string
      then (k', match v' with
                | VArr l => VArr (l ++ [v])
                | _ => VArr [v'; v]
                end) :: rest
      else (k', v') :: addProperty k v rest
  end.

(** The value of a tag that holds text only; blank text is the empty
    string. *)
Definition tagValue (text : string) : JsVal :=
  match parseTextData text with
  | Some v => v
  | None => VStr ""
  end.

(** The value of an element: its parsed text when it has neither
    attributes nor children, else an object of its text (when not blank),
    its attributes (prefixed, never parsed, dropped when they have no
    value) and its children. *)
Fixpoint compress (n : Node) : JsVal :=
  match n with
  | Element _ attrs text children =>
      let attrFields :=
        flat_map (fun a =>
          match snd a with
          | Some v => [(attributeNamePrefix +++ fst a, VStr (parseAttrValue v))]
          | None => []
          end) attrs in
      let childFields :=
        fold_left (fun obj c => addProperty (nodeName c) (compress c) obj)
                  children [] in
      match attrFields, childFields with
      | [], [] => tagValue text
      | _, _ =>
          VObj (match parseTextData text with
                | Some v => [(textNodeName, v)]
                | None => []
                end ++ attrFields ++ childFields)
      end
  end.

Definition parser_parse (xmlStr : Document) : JsVal :=
  VObj (fold_left (fun obj c => addProperty (nodeName c) (compress c) obj) xmlStr []).

End WithPlatform.
End FastXmlParser.
Import FastXmlParser.

(** ** src/message.ts *)

(** [enum MessageType]; the numeric value of a member is its position. *)
Inductive MessageType : Type :=
| Header | Reject | Nick | Begin | Move | Notification | GameOver | Restart
| Chat | GameOptions.

Definition MessageType_value (t : MessageType) : Z :=
  match t with
  | Header => 0 | Reject => 1 | Nick => 2 | Begin => 3 | Move => 4
  | Notification => 5 | GameOver => 6 | Restart => 7 | Chat => 8
  | GameOptions => 9
  end.

Record ShipDefinition : Type := {
  name : JsVal;
  plural : JsVal;
  number : JsVal;
  size : JsVal
}.

Inductive FieldState : Type := Hit | Miss | Sink.

Definition Coordinates : Type := (JsVal * JsVal) * (JsVal * JsVal).

(** The ten message classes, each with its public fields. *)
Inductive Message : Type :=
| HeaderMessage (protocolVersion clientName clientVersion clientDescription : JsVal)
| RejectMessage (versionMismatch reason : JsVal)
| NickMessage (nickname : JsVal)
| BeginMessage
| MoveMessage (x y : JsVal)
| NotificationMessage (x y : JsVal) (fieldState : FieldState)
                      (sinkCoordinates : option Coordinates)
| GameOverMessage
| RestartMessage
| ChatMessage (text nickname : JsVal)
| GameOptionsMessage (enabledAdjacentShips allowMultipleOfSame longestShip
                      boardWidth boardHeight : JsVal)
                     (shipDefinitions : list ShipDefinition).

(** The [type] each constructor hands to [super]; [GameOptionsMessage]
    hands over [MessageType.Header]. *)
Definition type (m : Message) : MessageType :=
  match m with
  | HeaderMessage _ _ _ _ => Header
  | RejectMessage _ _ => Reject
  | NickMessage _ => Nick
  | BeginMessage => Begin
  | MoveMessage _ _ => Move
  | NotificationMessage _ _ _ _ => Notification
  | GameOverMessage => GameOver
  | RestartMessage => Restart
  | ChatMessage _ _ => Chat
  | GameOptionsMessage _ _ _ _ _ _ => Header
  end.

Section Codec.
Context {P : Platform}.

(** [new NotificationMessage(x, y, fieldstate, death, sinkCoordinates)] *)
Definition new_NotificationMessage (x y fieldstate death : JsVal)
    (sinkCoordinates : option Coordinates) : Message :=
  NotificationMessage x y
    (if loose_eq_num fieldstate 99 then Miss
     else if truthy death then Sink else Hit)
    sinkCoordinates.

Inductive Outcome : Type := hit | miss | sink.

(** [MoveMessage.respond(message, shipCoordinates)] on a move at [(x, y)] *)
Definition respond (x y : JsVal) (message : Outcome)
    (shipCoordinates : option Coordinates) : Message :=
  match message with
  | sink => new_NotificationMessage x y (VNum 1) (VBool true) shipCoordinates
  | miss => new_NotificationMessage x y (VNum 99) (VBool false) None
  | hit => new_NotificationMessage x y (VNum 1) (VBool false) None
  end.

(** The [msgtype] property.  The classes list its two keys in either
    order, which does not show in the document. *)
Definition msgtype (code : Z) (typeName : string) : string * JsVal :=
  ("msgtype", VObj [("#text", VNum code); ("$type", VStr typeName)])%string.

(** The object each [toXML] hands to [builder.build]. *)
Definition toObject (m : Message) : JsError + JsVal :=
  match m with
  | HeaderMessage protocolVersion clientName clientVersion clientDescription =>
      inr (VObj [("kmessage", VObj [
        msgtype 0 "Header";
        ("protocolVersion", protocolVersion);
        ("clientName", clientName);
        ("clientVersion", clientVersion);
        ("clientDescription", clientDescription)])])%string
  | NickMessage nickname =>
      inr (VObj [("kmessage", VObj [
        msgtype 2 "Nick";
        ("nickname", nickname)])])%string
  | GameOptionsMessage enabledAdjacentShips allowMultipleOfSame longestShip
                       boardWidth boardHeight shipDefinitions =>
      ships <- mapE (fun definition =>
                 n <- toString (number definition) ;;
                 s <- toString (size definition) ;;
                 inr (VObj [("$name", name definition);
                            ("$number", n);
                            ("$pluralName", plural definition);
                            ("$size", s)])%string) shipDefinitions ;;
      inr (VObj [("kmessage", VObj [
        msgtype 9 "GameOptions";
        ("enabledAdjacentShips", enabledAdjacentShips);
        ("oneOrSeveralShips", VObj [("$longestShip", longestShip);
                                    ("#text", allowMultipleOfSame)]);
        ("boardWidth", boardWidth);
        ("boardHeight", boardHeight);
        ("ships", VArr ships)])])%string
  | ChatMessage text nickname =>
      inr (VObj [("kmessage", VObj [
        msgtype 8 "Chat";
        ("chat", text);
        ("nickname", nickname)])])%string
  | BeginMessage =>
      inr (VObj [("kmessage", VObj [msgtype 3 "Begin"])])%string
  | NotificationMessage x y fieldState sinkCoordinates =>
      match fieldState with
      | Sink =>
          match sinkCoordinates with
          | None => inl TypeError
          | Some (start, stop) =>
              inr (VObj [("kmessage", VObj [
                msgtype 5 "Notification";
                ("fieldx", x);
                ("fieldy", y);
                ("fieldstate", VNum 1);
                ("death", VBool true);
                ("xstart", fst start);
                ("xstop", fst stop);
                ("ystart", snd start);
                ("ystop", snd stop)])])%string
          end
      | _ =>
          inr (VObj [("kmessage", VObj [
            msgtype 5 "Notification";
            ("fieldx", x);
            ("fieldy", y);
            ("fieldstate", match fieldState with Miss => VNum 99 | _ => VNum 1 end)])])%string
      end
  | MoveMessage x y =>
      inr (VObj [("kmessage", VObj [
        msgtype 4 "Move";
        ("fieldx", x);
        ("fieldy", y)])])%string
  | GameOverMessage =>
      inr (VObj [("kmessage", VObj [msgtype 6 "GameOver"])])%string
  | RestartMessage =>
      inr (VObj [("kmessage", VObj [msgtype 7 "Restart"])])%string
  | RejectMessage versionMismatch reason =>
      inr (VObj [("kmessage", VObj [
        msgtype 1 "Reject";
        ("versionMismatch", versionMismatch);
        ("reason", reason)])])%string
  end.

(** [toXML()].  The constant first line [<!DOCTYPE kmessage>], which the
    parser skips, is not part of the document tree. *)
Definition toXML (m : Message) : JsError + Document :=
  o <- toObject m ;; inr (builder_build o).

(** [array.map(f)]: a [TypeError] on anything that is not an array. *)
Definition array_map {B : Type} (v : JsVal) (f : JsVal -> JsError + B)
  : JsError + list B :=
  match v with
  | VArr items => mapE f items
  | _ => inl TypeError
  end.

(** [Message.fromXML(xmlStr)] *)
Definition fromXML (xmlStr : Document) : JsError + Message :=
  let parsed := parser_parse xmlStr in
  kmessage <- get parsed "kmessage" ;;
  if negb (truthy kmessage) then inl (Error "invalid formatting") else
  msgtype <- get kmessage "msgtype" ;;
  typeNum <- get msgtype "#text" ;;
  match typeNum with
  | VNum 0 =>
      protocolVersion <- get kmessage "protocolVersion" ;;
      clientName <- get kmessage "clientName" ;;
      clientVersion <- get kmessage "clientVersion" ;;
      clientDescription <- get kmessage "clientDescription" ;;
      inr (HeaderMessage protocolVersion clientName clientVersion clientDescription)
  | VNum 9 =>
      enabledAdjacentShips <- get kmessage "enabledAdjacentShips" ;;
      oneOrSeveralShips <- get kmessage "oneOrSeveralShips" ;;
      allowMultipleOfSame <- get oneOrSeveralShips "#text" ;;
      longestShip <- get oneOrSeveralShips "$longestShip" ;;
      boardWidth <- get kmessage "boardWidth" ;;
      boardHeight <- get kmessage "boardHeight" ;;
      ships <- get kmessage "ships" ;;
      shipDefinitions <- array_map ships (fun x =>
        name <- get x "$name" ;;
        plural <- get x "$pluralName" ;;
        number <- get x "$number" ;;
        size <- get x "$size" ;;
        inr {| name := name; plural := plural;
               number := parseInt number; size := parseInt size |}) ;;
      inr (GameOptionsMessage enabledAdjacentShips allowMultipleOfSame
             (parseInt longestShip) boardWidth boardHeight shipDefinitions)
  | VNum 2 =>
      nickname <- get kmessage "nickname" ;;
      inr (NickMessage nickname)
  | VNum 8 =>
      chat <- get kmessage "chat" ;;
      nickname <- get kmessage "nickname" ;;
      inr (ChatMessage chat nickname)
  | VNum 3 => inr BeginMessage
  | VNum 4 =>
      fieldx <- get kmessage "fieldx" ;;
      fieldy <- get kmessage "fieldy" ;;
      inr (MoveMessage fieldx fieldy)
  | VNum 5 =>
      fieldx <- get kmessage "fieldx" ;;
      fieldy <- get kmessage "fieldy" ;;
      fieldstate <- get kmessage "fieldstate" ;;
      death <- get kmessage "death" ;;
      xstart <- get kmessage "xstart" ;;
      xstop <- get kmessage "xstop" ;;
      ystart <- get kmessage "ystart" ;;
      ystop <- get kmessage "ystop" ;;
      inr (new_NotificationMessage fieldx fieldy fieldstate death
             (if truthy xstart && truthy xstop && truthy ystart && truthy ystop
              then Some ((xstart, ystart), (xstop, ystop))
              else None))
  | VNum 6 => inr GameOverMessage
  | VNum 7 => inr RestartMessage
  | VNum 1 =>
      versionMismatch <- get kmessage "versionMismatch" ;;
      reason <- get kmessage "reason" ;;
      inr (RejectMessage versionMismatch reason)
  | _ => inl (Error ("Unknown message type: " +++ ToString typeNum))
  end.

End Codec.

(** ** The NavalClient class *)

(** [enum GameState] *)
Inductive GameState : Type :=
| DISCONNECTED
| SHIP_SETUP
| FIRE_SHIPS_SELF
| AWAIT_RESPONSE_SELF
| FIRE_SHIPS_OTHER
| AWAIT_RESPONSE_OTHER
| GAME_OVER.

Definition GameState_eqb (a b : GameState) : bool :=
  match a, b with
  | DISCONNECTED, DISCONNECTED
  | SHIP_SETUP, SHIP_SETUP
  | FIRE_SHIPS_SELF, FIRE_SHIPS_SELF
  | AWAIT_RESPONSE_SELF, AWAIT_RESPONSE_SELF
  | FIRE_SHIPS_OTHER, FIRE_SHIPS_OTHER
  | AWAIT_RESPONSE_OTHER, AWAIT_RESPONSE_OTHER
  | GAME_OVER, GAME_OVER => true
  | _, _ => false
  end.

Module Player.
Record Player : Type := {
  me : bool;
  nickname : JsVal
}.
End Player.
Abbreviation Player := Player.Player.

Record Options : Type := {
  adjacentShips : JsVal;
  allowMultipleOfSame : JsVal;
  longestShip : JsVal;
  boardWidth : JsVal;
  boardHeight : JsVal;
  shipDefinitions : list ShipDefinition
}.

(** A position [[x, y]] handed to [sendFireAt]. *)
Definition Position : Type := (Z * Z)%type.

Definition Position_eqb (p q : Position) : bool :=
  (fst p =? fst q) && (snd p =? snd q).

(** The socket, as far as the client uses it: whether [end()] was called
    and how many [once('close', ..)] listeners [disconnect] has left on
    it. *)
Record Socket : Type := {
  ended : bool;
  closeListeners : nat
}.

(** The fields of a client.  [rawListeners] are the [waitForNotification]
    closures that [sendFireAt] has registered on the ['raw'] event and that
    have not removed themselves, each with the position it captured, in
    the order of registration: the pending shots. *)
Record NavalClient : Type := {
  nickname : string;
  _gameState : GameState;
  gameOptions : Options;
  socket : option Socket;
  firedAt : list Position;
  opponent : option Player;
  rawListeners : list Position
}.

Definition set_gameState (v : GameState) (c : NavalClient) : NavalClient :=
  {| nickname := nickname c; _gameState := v; gameOptions := gameOptions c;
     socket := socket c; firedAt := firedAt c; opponent := opponent c;
     rawListeners := rawListeners c |}.

Definition set_gameOptions (v : Options) (c : NavalClient) : NavalClient :=
  {| nickname := nickname c; _gameState := _gameState c; gameOptions := v;
     socket := socket c; firedAt := firedAt c; opponent := opponent c;
     rawListeners := rawListeners c |}.

Definition set_socket (v : option Socket) (c : NavalClient) : NavalClient :=
  {| nickname := nickname c; _gameState := _gameState c;
     gameOptions := gameOptions c; socket := v; firedAt := firedAt c;
     opponent := opponent c; rawListeners := rawListeners c |}.

Definition set_firedAt (v : list Position) (c : NavalClient) : NavalClient :=
  {| nickname := nickname c; _gameState := _gameState c;
     gameOptions := gameOptions c; socket := socket c; firedAt := v;
     opponent := opponent c; rawListeners := rawListeners c |}.

Definition set_opponent (v : option Player) (c : NavalClient) : NavalClient :=
  {| nickname := nickname c; _gameState := _gameState c;
     gameOptions := gameOptions c; socket := socket c; firedAt := firedAt c;
     opponent := v; rawListeners := rawListeners c |}.

Definition set_rawListeners (v : list Position) (c : NavalClient) : NavalClient :=
  {| nickname := nickname c; _gameState := _gameState c;
     gameOptions := gameOptions c; socket := socket c; firedAt := firedAt c;
     opponent := opponent c; rawListeners := v |}.

(** The events of the client's [EventEmitter]. *)
Inductive Event : Type :=
| EvRaw (xmlStr : Document)
| EvConnect (player : Player)
| EvChat (message : Message)
| EvBegin (restartDetected : bool)
| EvMove (hit : Message)
| EvCanFire
| EvGameOver (player : option Player).

(** What a call or an incoming event does to the outside, in order.
    [Res] and [Rej] are the two callbacks of the promise that the
    [sendFireAt] call at that position returned. *)
Inductive Effect : Type :=
| Emit (e : Event)
| SocketWrite (data : Document)
| SocketEnd
| CreateConnection (host : string) (port : Z)
| Res (position : Position) (notification : Message)
| Rej (position : Position) (err : JsError).

(** Methods run in a state and exception monad over the client that also
    collects the effects; a thrown error keeps the state reached so far. *)
Definition M (A : Type) : Type :=
  NavalClient -> (JsError + A) * NavalClient * list Effect.

Definition ret {A : Type} (a : A) : M A := fun c => (inr a, c, []).

Definition bind {A B : Type} (m : M A) (f : A -> M B) : M B :=
  fun c =>
    match m c with
    | (inl e, c1, out) => (inl e, c1, out)
    | (inr a, c1, out) =>
        match f a c1 with
        | (r, c2, out') => (r, c2, out ++ out')
        end
    end.

Definition throw {A : Type} (e : JsError) : M A := fun c => (inl e, c, []).

Definition this : M NavalClient := fun c => (inr c, c, []).

Definition assign (f : NavalClient -> NavalClient) : M unit :=
  fun c => (inr tt, f c, []).

Definition effect (e : Effect) : M unit := fun c => (inr tt, c, [e]).

Definition lift {A : Type} (r : JsError + A) : M A :=
  match r with
  | inl e => throw e
  | inr a => ret a
  end.

Notation "x <~ m ;; k" := (bind m (fun x => k))
  (at level 61, m at next level, right associativity).
Notation "m >> k" := (bind m (fun _ => k))
  (at level 61, right associativity).

Definition result {A : Type} (r : (JsError + A) * NavalClient * list Effect)
  : JsError + A := fst (fst r).
Definition client {A : Type} (r : (JsError + A) * NavalClient * list Effect)
  : NavalClient := snd (fst r).
Definition effects {A : Type} (r : (JsError + A) * NavalClient * list Effect)
  : list Effect := snd r.

Definition emit (e : Event) : M unit := effect (Emit e).

(** [this.#socket?.write(data)]: without a socket the argument is not
    evaluated. *)
Definition socket_write (data : JsError + Document) : M unit :=
  c <~ this ;;
  match socket c with
  | None => ret tt
  | Some _ => xml <~ lift data ;; effect (SocketWrite xml)
  end.

(** [new NavalClient(nickname)] *)
Definition new_NavalClient (nickname : string) : NavalClient :=
  {| nickname := nickname;
     _gameState := DISCONNECTED;
     gameOptions :=
       {| adjacentShips := VBool true;
          allowMultipleOfSame := VBool false;
          longestShip := VNum 4;
          boardHeight := VNum 10;
          boardWidth := VNum 10;
          shipDefinitions :=
            [ {| name := VStr "minesweeper"; plural := VStr "minesweepers";
                 number := VNum 1; size := VNum 1 |};
              {| name := VStr "frigate"; plural := VStr "frigates";
                 number := VNum 1; size := VNum 2 |};
              {| name := VStr "cruise"; plural := VStr "cruises";
                 number := VNum 1; size := VNum 3 |};
              {| name := VStr "carrier"; plural := VStr "carriers";
                 number := VNum 1; size := VNum 4 |} ] |};
     socket := None;
     firedAt := [];
     opponent := None;
     rawListeners := [] |}.

Section Client.
Context {P : Platform}.

Definition sendChatMessage (text : string) : M unit :=
  c <~ this ;;
  let chatMessage := ChatMessage (VStr text) (VStr (nickname c)) in
  socket_write (toXML chatMessage).

Definition sendGameOver : M unit :=
  c <~ this ;;
  if GameState_eqb (_gameState c) FIRE_SHIPS_SELF
  then throw (Error "you can only send game over after sending a move response")
  else
    let gameOver := GameOverMessage in
    emit (EvGameOver (opponent c)) >>
    socket_write (toXML gameOver).

Definition requestRestart : M unit :=
  let restartMsg := RestartMessage in
  socket_write (toXML restartMsg).

(** [#handleMessage(xmlStr)]; the [console.log] is left out. *)
Definition handleMessage (xmlStr : Document) : M unit :=
  message <~ lift (fromXML xmlStr) ;;
  match message with
  | HeaderMessage _ _ _ _ =>
      let myHeader := HeaderMessage (VStr "0.1.0") (VStr "KBattleship") (VNum 4)
                        (VStr "The Naval Battle game") in
      socket_write (toXML myHeader)
  | GameOptionsMessage enabledAdjacentShips allowMultipleOfSame longestShip
                       boardWidth boardHeight shipDefinitions =>
      assign (set_gameOptions
                {| adjacentShips := enabledAdjacentShips;
                   allowMultipleOfSame := allowMultipleOfSame;
                   longestShip := longestShip;
                   boardHeight := boardHeight;
                   boardWidth := boardWidth;
                   shipDefinitions := shipDefinitions |}) >>
      socket_write (toXML message)
  | NickMessage nickname' =>
      c <~ this ;;
      let myNick := NickMessage (VStr (nickname c)) in
      assign (set_gameState SHIP_SETUP) >>
      socket_write (toXML myNick) >>
      let opponent := {| Player.me := false; Player.nickname := nickname' |} in
      assign (set_opponent (Some opponent)) >>
      emit (EvConnect opponent)
  | ChatMessage _ _ => emit (EvChat message)
  | BeginMessage =>
      socket_write (toXML message) >>
      c <~ this ;;
      let detectedRestart := negb (GameState_eqb (_gameState c) SHIP_SETUP) in
      assign (set_firedAt []) >>
      assign (set_gameState FIRE_SHIPS_OTHER) >>
      emit (EvBegin detectedRestart)
  | MoveMessage x y =>
      let withSocket := MoveMessage x y in
      assign (set_gameState AWAIT_RESPONSE_SELF) >>
      emit (EvMove withSocket)
  | GameOverMessage =>
      assign (set_gameState GAME_OVER) >>
      c <~ this ;;
      emit (EvGameOver (Some {| Player.me := true;
                                Player.nickname := VStr (nickname c) |}))
  | _ => ret tt
  end.

Definition sendMoveResponse (notification : Message) : M unit :=
  c <~ this ;;
  if negb (GameState_eqb (_gameState c) AWAIT_RESPONSE_SELF)
  then throw (Error "cannot send response right now")
  else
    socket_write (toXML notification) >>
    assign (set_gameState FIRE_SHIPS_SELF) >>
    emit EvCanFire.

(** [this.off('raw', waitForNotification)]: the closure removes itself.
    Closures that captured equal positions behave alike, so the first of
    them stands for it. *)
Fixpoint off (position : Position) (listeners : list Position) : list Position :=
  match listeners with
  | [] => []
  | p :: rest =>
      if Position_eqb p position then rest else p :: off position rest
  end.

(** The listener that [sendFireAt(position)] puts on ['raw']. *)
Definition waitForNotification (position : Position) (xmlStr : Document) : M unit :=
  message <~ lift (fromXML xmlStr) ;;
  match message with
  | NotificationMessage x y _ _ =>
      if loose_eq_num x (fst position) && loose_eq_num y (snd position)
      then
        c <~ this ;;
        assign (set_firedAt (firedAt c ++ [position])) >>
        c <~ this ;;
        assign (set_rawListeners (off position (rawListeners c))) >>
        effect (Res position message)
      else ret tt
  | _ => ret tt
  end.

(** [sendFireAt(position)].  The result is that of the promise the call
    returns (or hands to the callback): [inl] when it is rejected by one of
    the two checks, [inr tt] when it is left pending; it is settled later
    by a [Res] effect of the listener. *)
Definition sendFireAt (position : Position) : M unit :=
  c <~ this ;;
  if negb (GameState_eqb (_gameState c) FIRE_SHIPS_SELF)
  then throw (Error "cannot fire at ships right now")
  else
    match find (fun p => (fst p =? fst position) && (snd p =? snd position))
               (firedAt c) with
    | Some _ => throw (Error "already fired in this position")
    | None =>
        let move := MoveMessage (VNum (fst position)) (VNum (snd position)) in
        assign (set_rawListeners (rawListeners c ++ [position])) >>
        socket_write (toXML move)
    end.

(** [connect(port, host)] *)
Definition connect (port : Z) (host : string) : M unit :=
  c <~ this ;;
  if negb (GameState_eqb (_gameState c) DISCONNECTED)
  then throw (Error "already connected to a server")
  else
    effect (CreateConnection host port) >>
    assign (set_socket (Some {| ended := false; closeListeners := 0 |})).

(** [disconnect()] *)
Definition disconnect : M unit :=
  c <~ this ;;
  if GameState_eqb (_gameState c) DISCONNECTED
  then throw (Error "not connected to a server, cannot disconnect")
  else
    match socket c with
    | None => ret tt
    | Some s =>
        effect SocketEnd >>
        assign (set_socket (Some {| ended := true;
                                    closeListeners := S (closeListeners s) |}))
    end.

(** [this.emit('raw', str)]: the event goes out, then every listener that
    was registered when the event was emitted runs, in order. *)
Fixpoint runListeners (xmlStr : Document) (listeners : list Position) : M unit :=
  match listeners with
  | [] => ret tt
  | position :: rest =>
      waitForNotification position xmlStr >> runListeners xmlStr rest
  end.

Definition emit_raw (xmlStr : Document) : M unit :=
  emit (EvRaw xmlStr) >>
  c <~ this ;;
  runListeners xmlStr (rawListeners c).

(** The ['data'] handler that [connect] puts on the socket. *)
Definition onData (str : Document) : M unit :=
  emit_raw str >>
  handleMessage str.

(** The socket's ['close'] event: it runs the listeners that [disconnect]
    registered with [once], and nothing else. *)
Definition onClose : M unit :=
  c <~ this ;;
  match socket c with
  | None => ret tt
  | Some s =>
      match closeListeners s with
      | O => ret tt
      | S _ =>
          assign (set_socket (Some {| ended := ended s; closeListeners := 0 |})) >>
          assign (set_gameState DISCONNECTED)
      end
  end.

(** What can happen to a client: a call of a public method, or an event of
    its socket (which needs a socket). *)
Inductive Action : Type :=
| SendChatMessage (text : string)
| SendGameOver
| RequestRestart
| SendMoveResponse (notification : Message)
| SendFireAt (position : Position)
| Connect (port : Z) (host : string)
| Disconnect
| Data (str : Document)
| Close.

Definition perform (a : Action) : M unit :=
  match a with
  | SendChatMessage text => sendChatMessage text
  | SendGameOver => sendGameOver
  | RequestRestart => requestRestart
  | SendMoveResponse notification => sendMoveResponse notification
  | SendFireAt position => sendFireAt position
  | Connect port host => connect port host
  | Disconnect => disconnect
  | Data str => onData str
  | Close => onClose
  end.

Definition enabled (a : Action) (c : NavalClient) : bool :=
  match a with
  | Data _ | Close => match socket c with Some _ => true | None => false end
  | _ => true
  end.

(** The client after a sequence of actions; [None] when a socket event is
    listed where there is no socket. *)
Fixpoint run (actions : list Action) (c : NavalClient) : option NavalClient :=
  match actions with
  | [] => Some c
  | a :: rest =>
      if enabled a c then run rest (client (perform a c)) else None
  end.

Definition reachable (c : NavalClient) : Prop :=
  exists nickname actions, run actions (new_NavalClient nickname) = Some c.

End Client.

(** ** What the properties are stated with *)

Section Statements.
Context {P : Platform}.

(** Encoding, then decoding. *)
Definition roundTrip (m : Message) : JsError + Message :=
  xmlStr <- toXML m ;; fromXML xmlStr.

(** The root node of a document and its numeric type code, as [fromXML]
    reads them. *)
Definition kmessageOf (xmlStr : Document) : JsError + JsVal :=
  get (parser_parse xmlStr) "kmessage".

Definition typeNumOf (xmlStr : Document) : JsError + JsVal :=
  kmessage <- kmessageOf xmlStr ;;
  msgtype <- get kmessage "msgtype" ;;
  get msgtype "#text".

(** Field values that are written and read back unchanged.  Of the
    numbers, [VNum] holds the integers; a number that goes through
    [parseInt] (the longest ship, the number and the size of a ship
    definition) must be a safe integer.  A string in a tag must be one
    the parser hands back as it is (it is not blank-padded and does not
    read as a number or a boolean); a string in an attribute likewise, and
    it is not the text [true]. *)
Definition isNumber (v : JsVal) : Prop := exists n, v = VNum n.

Definition isSafeInteger (v : JsVal) : Prop :=
  exists n, v = VNum n /\ - 2 ^ 53 < n < 2 ^ 53.

Definition isBoolean (v : JsVal) : Prop := exists b, v = VBool b.

Definition isString (v : JsVal) : Prop :=
  exists s, v = VStr s /\ tagValue s = VStr s.

Definition isAttrString (v : JsVal) : Prop :=
  exists s, v = VStr s /\ s <> "true"%string /\ parseAttrValue s = s.

Definition isNonZero (v : JsVal) : Prop := exists n, v = VNum n /\ n <> 0.

Definition wellTypedShip (d : ShipDefinition) : Prop :=
  isAttrString (name d) /\ isAttrString (plural d) /\
  isSafeInteger (number d) /\ isSafeInteger (size d).

(** Messages on which encoding and decoding are inverse: integers,
    booleans and parser-stable strings in the fields, a sink span exactly
    on a [Sink] notification and without a zero coordinate, at least two
    ship definitions. *)
Definition roundTrips (m : Message) : Prop :=
  match m with
  | HeaderMessage protocolVersion clientName clientVersion clientDescription =>
      isString protocolVersion /\ isString clientName /\
      isNumber clientVersion /\ isString clientDescription
  | RejectMessage versionMismatch reason =>
      isBoolean versionMismatch /\ isString reason
  | NickMessage nickname => isString nickname
  | BeginMessage | GameOverMessage | RestartMessage => True
  | MoveMessage x y => isNumber x /\ isNumber y
  | NotificationMessage x y fieldState sinkCoordinates =>
      isNumber x /\ isNumber y /\
      match fieldState, sinkCoordinates with
      | Sink, Some (start, stop) =>
          isNonZero (fst start) /\ isNonZero (snd start) /\
          isNonZero (fst stop) /\ isNonZero (snd stop)
      | Sink, None => False
      | _, Some _ => False
      | _, None => True
      end
  | ChatMessage text nickname => isString text /\ isString nickname
  | GameOptionsMessage enabledAdjacentShips allowMultipleOfSame longestShip
                       boardWidth boardHeight shipDefinitions =>
      isBoolean enabledAdjacentShips /\ isBoolean allowMultipleOfSame /\
      isSafeInteger longestShip /\ isNumber boardWidth /\ isNumber boardHeight /\
      (2 <= length shipDefinitions)%nat /\
      Forall wellTypedShip shipDefinitions
  end.

(** What the builder writes for one ship definition: the object that
    [toXML] makes of it, and the element with its four attributes. *)
Definition shipObject (d : ShipDefinition) : JsVal :=
  VObj [("$name", name d);
        ("$number", VStr (ToString (number d)));
        ("$pluralName", plural d);
        ("$size", VStr (ToString (size d)))]%string.

Definition shipElement (d : ShipDefinition) : Node :=
  Element "ships"
    [buildAttrPair "$name" (name d);
     buildAttrPair "$number" (VStr (ToString (number d)));
     buildAttrPair "$pluralName" (plural d);
     buildAttrPair "$size" (VStr (ToString (size d)))] "" [].

(** The ["#text"] property that the parser gives an element which also has
    attributes or children. *)
Definition textField (text : string) : list (string * JsVal) :=
  match parseTextData text with
  | Some v => [(textNodeName, v)]
  | None => []
  end.

End Statements.

(** A computation that leaves a field of the client as it finds it. *)
Definition keeps {X A : Type} (field : NavalClient -> X) (m : M A) : Prop :=
  forall c, field (client (m c)) = field c.

(** How often a position is listed, and how often an effect list resolves
    the shot at a position. *)
Definition occurrences (position : Position) (l : list Position) : nat :=
  length (filter (Position_eqb position) l).

Definition isRes (position : Position) (e : Effect) : bool :=
  match e with
  | Res p _ => Position_eqb position p
  | _ => false
  end.

Definition resolutions (position : Position) (out : list Effect) : nat :=
  length (filter (isRes position) out).

Definition isRej (e : Effect) : bool :=
  match e with
  | Rej _ _ => true
  | _ => false
  end.

(** ** More of what the properties are stated with *)

(** The messages whose [toXML] throws: a Sink notification without its
    span ([this.sinkCoordinates![0][0]]) and game options with a ship
    definition whose [number] or [size] is undefined
    ([definition.number.toString()]). *)
Definition unencodable (m : Message) : Prop :=
  match m with
  | NotificationMessage _ _ Sink None => True
  | GameOptionsMessage _ _ _ _ _ shipDefinitions =>
      Exists (fun d => number d = VUndef \/ size d = VUndef) shipDefinitions
  | _ => False
  end.

(** The type code that the [toXML] of each class writes into [msgtype]. *)
Definition wireCode (m : Message) : Z :=
  match m with
  | HeaderMessage _ _ _ _ => 0
  | RejectMessage _ _ => 1
  | NickMessage _ => 2
  | BeginMessage => 3
  | MoveMessage _ _ => 4
  | NotificationMessage _ _ _ _ => 5
  | GameOverMessage => 6
  | RestartMessage => 7
  | ChatMessage _ _ => 8
  | GameOptionsMessage _ _ _ _ _ _ => 9
  end.

(** The messages that [#handleMessage] answers on the socket. *)
Definition answered (m : Message) : bool :=
  match m with
  | HeaderMessage _ _ _ _ | NickMessage _ | BeginMessage
  | GameOptionsMessage _ _ _ _ _ _ => true
  | _ => false
  end.

Section MoreStatements.
Context {P : Platform}.

(** The properties of the root node of a document. *)
Definition fieldsOf (xmlStr : Document) : list (string * JsVal) :=
  match kmessageOf xmlStr with
  | inr (VObj fields) => fields
  | _ => []
  end.

End MoreStatements.

(** A call of a public method, as opposed to an event of the socket. *)
Definition isCall (a : Action) : bool :=
  match a with
  | Data _ | Close => false
  | _ => true
  end.

Definition isSocketWrite (e : Effect) : bool :=
  match e with
  | SocketWrite _ => true
  | _ => false
  end.

(** A computation that takes every client to a client related to it. *)
Definition steps {A : Type} (R : NavalClient -> NavalClient -> Prop) (m : M A) : Prop :=
  forall c, R c (client (m c)).

(** The game states that the methods and the data handler assign. *)
Definition playing (s : GameState) : Prop :=
  s = SHIP_SETUP \/ s = FIRE_SHIPS_SELF \/ s = AWAIT_RESPONSE_SELF \/
  s = FIRE_SHIPS_OTHER \/ s = GAME_OVER.

Definition gameStateStep (c c' : NavalClient) : Prop :=
  _gameState c' = _gameState c \/ playing (_gameState c').

Definition opponentStep (c c' : NavalClient) : Prop :=
  opponent c' = opponent c \/
  exists n, opponent c' = Some {| Player.me := false; Player.nickname := n |}.

(** ** A platform to compute with: decimal integers

    Numbers are written in decimal; the text of a tag is read as a number
    when it is a decimal integer, as a boolean when it is [true] or [false],
    and as itself otherwise; attribute texts are read as they are. *)
Module Decimal.

Definition print (n : Z) : string :=
  NilZero.string_of_int (Z.to_int n).

Definition parseNumber (s : string) : option Z :=
  option_map Z.of_int (NilZero.int_of_string s).

Definition parseText (s : string) : option JsVal :=
  if (s =? "")%string then None
  else match parseNumber s with
       | Some n => Some (VNum n)
       | None =>
           if (s =? "true")%string then Some (VBool true)
           else if (s =? "false")%string then Some (VBool false)
           else Some (VStr s)
       end.

Definition platform : Platform := {|
  Number_toString := print;
  parseInt_string := parseNumber;
  StringToNumber := fun s => if (s =? "")%string then Some 0 else parseNumber s;
  parseTextData := parseText;
  parseAttrValue := fun s => s
|}.

End Decimal.

(** ** Sessions to compute with, on the decimal platform *)
Module Scenario.
Section OnDecimal.
#[local] Existing Instance Decimal.platform.

(** The document a peer sends for a message. *)
Definition xml (m : Message) : Document :=
  match toXML m with
  | inr xmlStr => xmlStr
  | inl _ => []
  end.

(** The client [A] after a list of actions. *)
Definition after (actions : list Action) : NavalClient :=
  match run actions (new_NavalClient "A") with
  | Some c => c
  | None => new_NavalClient "A"
  end.

(** Connected to [B], ships placed, [B] has begun: it is [B]'s turn. *)
Definition begun : list Action :=
  [ Connect 54321 "127.0.0.1";
    Data (xml (HeaderMessage (VStr "0.1.0") (VStr "app") (VNum 1) (VStr "desc")));
    Data (xml (NickMessage (VStr "B")));
    Data (xml BeginMessage) ].

(** [B] has fired at (2, 2): [A] must answer. *)
Definition fired : list Action :=
  begun ++ [ Data (xml (MoveMessage (VNum 2) (VNum 2))) ].

(** [A] has answered with a miss: it is [A]'s turn. *)
Definition myTurn : list Action :=
  fired ++ [ SendMoveResponse (respond (VNum 2) (VNum 2) miss None) ].

(** [A] has fired at (3, 4) and waits for the notification. *)
Definition pending : list Action :=
  myTurn ++ [ SendFireAt (3, 4) ].

Definition notification (x y : Z) : Document :=
  xml (NotificationMessage (VNum x) (VNum y) Hit None).

(** The answer [respond("sink", [[2, 2], [2, 4]])] to a move at (2, 3). *)
Definition sunk : Message :=
  respond (VNum 2) (VNum 3) sink (Some ((VNum 2, VNum 2), (VNum 2, VNum 4))).

(** The options a new client starts with, as a message. *)
Definition defaultOptions : Message :=
  let o := gameOptions (new_NavalClient "A") in
  GameOptionsMessage (adjacentShips o) (allowMultipleOfSame o) (longestShip o)
    (boardWidth o) (boardHeight o) (shipDefinitions o).

(** A document whose type code is not one of the ten. *)
Definition unknown : Document :=
  [Element "kmessage" [] "" [Element "msgtype" [("type", Some "Ping")] "10" []]]%string.

End OnDecimal.
End Scenario.

(** ** A second client and more documents, on the decimal platform *)
Module Peer.
Section OnDecimal.
#[local] Existing Instance Decimal.platform.

(** The client [B], connected; nothing has arrived yet. *)
Definition b : NavalClient :=
  client (perform (Connect 54321 "127.0.0.1") (new_NavalClient "B")).

(** A Nick message without its [nickname] element. *)
Definition bareNick : Document :=
  [Element "kmessage" [] "" [Element "msgtype" [("type", Some "Nick")] "2" []]]%string.

(** Game options with a single ship definition, and with two. *)
Definition frigate : ShipDefinition :=
  {| name := VStr "frigate"; plural := VStr "frigates";
     number := VNum 1; size := VNum 2 |}.

Definition oneShip : Document :=
  Scenario.xml (GameOptionsMessage (VBool true) (VBool false) (VNum 4)
                  (VNum 10) (VNum 10) [frigate]).

Definition twoShips : Document :=
  Scenario.xml (GameOptionsMessage (VBool true) (VBool false) (VNum 4)
                  (VNum 10) (VNum 10) [frigate; frigate]).

End OnDecimal.
End Peer.

(** * Properties *)

(** ** The decimal platform keeps the laws *)

Lemma parseNumber_print (n : Z) :
  Decimal.parseNumber (Decimal.print n) = Some n.
Proof.
  unfold Decimal.parseNumber, Decimal.print.
  rewrite NilZero.isi.
  - simpl. now rewrite DecimalZ.of_to.
  - destruct n; simpl; try discriminate;
      intros [= H]; now apply DecimalPos.Unsigned.to_uint_nonnil in H.
  - destruct n; simpl; try discriminate;
      intros [= H]; now apply DecimalPos.Unsigned.to_uint_nonnil in H.
Qed.

Lemma print_neq (n : Z) (s : string) :
  Decimal.parseNumber s = None -> Decimal.print n <> s.
Proof.
  intros Hs E. rewrite <- E, parseNumber_print in Hs. discriminate.
Qed.

Lemma Decimal_laws : PlatformLaws Decimal.platform.
Proof.
  split; cbn.
  - intros n _. apply parseNumber_print.
  - intros n. now apply print_neq.
  - intros n. unfold Decimal.parseText.
    rewrite parseNumber_print.
    destruct (String.eqb_spec (Decimal.print n) ""); [|reflexivity].
    now apply print_neq in e.
  - reflexivity.
  - reflexivity.
Qed.

(** ** The codec: decode failures *)

Section CodecFacts.
Context {P : Platform}.

(** [GameOptionsMessage] writes the type code 9 of [GameOptions] but
    keeps [Header], whose value is 0, in its [type] field. *)
Remark GameOptionsMessage_type (a m l w h : JsVal) (defs : list ShipDefinition) :
  type (GameOptionsMessage a m l w h defs) = Header /\
  MessageType_value (type (GameOptionsMessage a m l w h defs)) <> 9.
Proof. now split. Qed.

Lemma get_inr_object (v : JsVal) (k k' : string) (n : Z) :
  (msgtype <- get v k ;; get msgtype k') = inr (VNum n) ->
  exists fields, v = VObj fields.
Proof.
  destruct v; simpl; try discriminate. intros _. now eexists.
Qed.

(** A root that is missing, or empty, or any other falsy value, is
    refused before anything is read from it. *)
Lemma fromXML_falsy_root (xmlStr : Document) (kmessage : JsVal) :
  kmessageOf xmlStr = inr kmessage -> truthy kmessage = false ->
  fromXML xmlStr = inl (Error "invalid formatting").
Proof.
  unfold kmessageOf, fromXML. intros -> Hf. simpl. now rewrite Hf.
Qed.

Lemma fromXML_unknown_code (xmlStr : Document) (n : Z) :
  typeNumOf xmlStr = inr (VNum n) -> n < 0 \/ 9 < n ->
  fromXML xmlStr = inl (Error ("Unknown message type: " +++ Number_toString n)).
Proof.
  unfold typeNumOf, kmessageOf, fromXML. intros H Hn.
  destruct (get (parser_parse xmlStr) "kmessage") as [e|kmessage]; [discriminate|].
  cbn [bindE] in *.
  destruct (get_inr_object _ _ _ _ H) as [fields ->].
  cbn [truthy negb].
  destruct (get (VObj fields) "msgtype") as [e|msgtype]; [discriminate|].
  cbn [bindE] in *. rewrite H. cbn [bindE ToString].
  destruct n as [|p|p]; [lia| |reflexivity].
  do 4 (try destruct p as [p|p|]; try lia; try reflexivity).
Qed.

(** C8.  A document without a root node, or with a numeric type code that
    is none of 0 .. 9, is not decoded: [fromXML] throws an [Error] and so
    returns no message, whole or partial. *)
Theorem fromXML_decode_failure (xmlStr : Document) :
  kmessageOf xmlStr = inr VUndef \/
  (exists n, typeNumOf xmlStr = inr (VNum n) /\ (n < 0 \/ 9 < n)) ->
  exists message, fromXML xmlStr = inl (Error message).
Proof.
  intros [Habsent | (n & Hcode & Hn)].
  - eexists. now apply (fromXML_falsy_root xmlStr VUndef).
  - eexists. now apply (fromXML_unknown_code xmlStr n).
Qed.

End CodecFacts.

(** ** The codec: encoding, then decoding *)

Section RoundTrip.
Context {P : Platform} {L : PlatformLaws P}.

Lemma tagValue_number (n : Z) : tagValue (Number_toString n) = VNum n.
Proof. unfold tagValue. now rewrite parseTextData_number. Qed.

Lemma parseTextData_boolean (b : bool) :
  parseTextData (if b then "true" else "false")%string = Some (VBool b).
Proof. destruct b; [apply parseTextData_true|apply parseTextData_false]. Qed.

Lemma tagValue_boolean (b : bool) :
  tagValue (if b then "true" else "false")%string = VBool b.
Proof. unfold tagValue. now rewrite parseTextData_boolean. Qed.

(** *** The builder and the parser on a list of ship definitions *)

Lemma j2x_array (key : string) (items : list JsVal) :
  j2x key (VArr items) = flat_map (j2x key) items.
Proof.
  induction items as [|x items IH]; [reflexivity|].
  cbn [flat_map]. rewrite <- IH. reflexivity.
Qed.

Lemma j2x_object (key : string) (fields : list (string * JsVal)) :
  j2x key (VObj fields) =
  [Element key (attrsOf fields) (textOf fields)
     (flat_map (fun kv =>
        if isAttribute (fst kv) || (fst kv =? textNodeName)%string
        then [] else j2x (fst kv) (snd kv)) fields)].
Proof.
  cbn [j2x]. do 2 f_equal.
  induction fields as [|[k x] fields IH]; [reflexivity|].
  cbn [flat_map fst snd]. now rewrite <- IH.
Qed.

Lemma mapE_ships (defs : list ShipDefinition) :
  Forall wellTypedShip defs ->
  mapE (fun definition =>
          n <- toString (number definition) ;;
          s <- toString (size definition) ;;
          inr (VObj [("$name", name definition);
                     ("$number", n);
                     ("$pluralName", plural definition);
                     ("$size", s)])%string) defs =
  inr (map shipObject defs).
Proof.
  induction 1 as [|d defs Hd _ IH]; [reflexivity|].
  cbn [mapE map]. rewrite IH.
  destruct d as [nm pl nu sz]. destruct Hd as (_ & _ & (n & Hn & _) & (m & Hm & _)).
  cbn in Hn, Hm. subst. reflexivity.
Qed.

Lemma j2x_ships (defs : list ShipDefinition) :
  Forall wellTypedShip defs ->
  j2x "ships" (VArr (map shipObject defs)) = map shipElement defs.
Proof.
  intros H. rewrite j2x_array.
  induction H as [|d defs Hd _ IH]; [reflexivity|].
  cbn [map flat_map]. rewrite IH.
  destruct d as [nm pl nu sz].
  destruct Hd as ((s1 & H1 & ?) & (s2 & H2 & ?) & (n & Hn & _) & (m & Hm & _)).
  cbn in H1, H2, Hn, Hm. subst. reflexivity.
Qed.

Lemma addProperty_new (k : string) (v : JsVal) (obj : list (string * JsVal)) :
  forallb (fun kv => negb (fst kv =? k)%string) obj = true ->
  addProperty k v obj = obj ++ [(k, v)].
Proof.
  induction obj as [|[k' v'] obj IH]; cbn; [reflexivity|].
  intros H. apply andb_true_iff in H. destruct H as [H1 H2].
  apply negb_true_iff in H1. rewrite H1. now rewrite IH.
Qed.

Lemma addProperty_again (k : string) (v : JsVal) (l : list JsVal)
    (obj : list (string * JsVal)) :
  forallb (fun kv => negb (fst kv =? k)%string) obj = true ->
  addProperty k v (obj ++ [(k, VArr l)]) = obj ++ [(k, VArr (l ++ [v]))].
Proof.
  induction obj as [|[k' v'] obj IH]; cbn.
  - now rewrite String.eqb_refl.
  - intros H. apply andb_true_iff in H. destruct H as [H1 H2].
    apply negb_true_iff in H1. rewrite H1. now rewrite IH.
Qed.

Lemma addProperty_second (k : string) (v : JsVal) (fields : list (string * JsVal))
    (obj : list (string * JsVal)) :
  forallb (fun kv => negb (fst kv =? k)%string) obj = true ->
  addProperty k v (obj ++ [(k, VObj fields)]) =
  obj ++ [(k, VArr [VObj fields; v])].
Proof.
  induction obj as [|[k' v''] obj IH]; cbn.
  - now rewrite String.eqb_refl.
  - intros H. apply andb_true_iff in H. destruct H as [H1 H2].
    apply negb_true_iff in H1. rewrite H1. now rewrite IH.
Qed.

(** The parsed element of a ship definition: its four attributes, after
    the text property if the parser makes one of empty text. *)
Lemma compress_ship (d : ShipDefinition) :
  wellTypedShip d ->
  exists pre,
    compress (shipElement d) =
      VObj (pre ++ [("$name", name d);
                    ("$number", VStr (parseAttrValue (ToString (number d))));
                    ("$pluralName", plural d);
                    ("$size", VStr (parseAttrValue (ToString (size d))))]%string) /\
    (pre = [] \/ exists v, pre = [("#text"%string, v)]).
Proof.
  destruct d as [nm pl nu sz].
  intros ((s1 & H1 & T1 & A1) & (s2 & H2 & T2 & A2) & (n & Hn & _) & (m & Hm & _)).
  cbn in H1, H2, Hn, Hm. subst.
  cbn -[parseTextData]. unfold buildAttrPair. cbn [ToString].
  apply String.eqb_neq in T1, T2. rewrite T1, T2.
  pose proof (Number_toString_not_true n) as N1.
  pose proof (Number_toString_not_true m) as N2.
  apply String.eqb_neq in N1, N2. rewrite N1, N2.
  cbn -[parseTextData]. rewrite A1, A2.
  eexists. split; [reflexivity|].
  destruct (parseTextData ""); [right; now eexists|now left].
Qed.

Lemma fold_ships (defs : list ShipDefinition) (l : list JsVal)
    (obj : list (string * JsVal)) :
  forallb (fun kv => negb (fst kv =? "ships")%string) obj = true ->
  fold_left (fun obj c => addProperty (nodeName c) (compress c) obj)
            (map shipElement defs) (obj ++ [("ships"%string, VArr l)]) =
  obj ++ [("ships"%string,
           VArr (l ++ map (fun d => compress (shipElement d)) defs))].
Proof.
  intros Hobj. revert l.
  induction defs as [|d defs IH]; intros l; cbn [map fold_left].
  - now rewrite app_nil_r.
  - cbn [nodeName shipElement].
    rewrite addProperty_again by assumption.
    rewrite IH. now rewrite <- app_assoc.
Qed.

(** Two or more elements of the same name come back as an array. *)
Lemma fold_ships_all (d1 d2 : ShipDefinition) (defs : list ShipDefinition)
    (obj : list (string * JsVal)) :
  forallb (fun kv => negb (fst kv =? "ships")%string) obj = true ->
  Forall wellTypedShip (d1 :: d2 :: defs) ->
  fold_left (fun obj c => addProperty (nodeName c) (compress c) obj)
            (map shipElement (d1 :: d2 :: defs)) obj =
  obj ++ [("ships"%string,
           VArr (map (fun d => compress (shipElement d)) (d1 :: d2 :: defs)))].
Proof.
  intros Hobj Hd. cbn [map fold_left nodeName shipElement].
  rewrite (addProperty_new "ships" _ obj) by assumption.
  destruct (compress_ship d1) as (pre & E & _); [now inversion Hd|].
  change (compress (Element "ships"
            [buildAttrPair "$name" (name d1);
             buildAttrPair "$number" (VStr (ToString (number d1)));
             buildAttrPair "$pluralName" (plural d1);
             buildAttrPair "$size" (VStr (ToString (size d1)))] "" []))
    with (compress (shipElement d1)).
  rewrite E at 1. rewrite addProperty_second by assumption.
  rewrite fold_ships by assumption. now rewrite <- E.
Qed.

Lemma decode_ships (defs : list ShipDefinition) :
  Forall wellTypedShip defs ->
  mapE (fun x : JsVal =>
          name <- get x "$name" ;;
          plural <- get x "$pluralName" ;;
          number <- get x "$number" ;;
          size <- get x "$size" ;;
          inr {| name := name; plural := plural;
                 number := parseInt number; size := parseInt size |})
       (map (fun d => compress (shipElement d)) defs) = inr defs.
Proof.
  induction 1 as [|d defs Hd _ IH]; [reflexivity|].
  cbn [map mapE]. rewrite IH.
  destruct (compress_ship d Hd) as (pre & -> & Hpre).
  destruct d as [nm pl nu sz].
  destruct Hd as ((s1 & H1 & T1 & A1) & (s2 & H2 & T2 & A2) &
                  (n & Hn & Bn) & (m & Hm & Bm)).
  cbn in H1, H2, Hn, Hm. subst.
  destruct Hpre as [->|[v ->]]; cbn; unfold parseInt; cbn;
    rewrite !parseInt_Number_toString by assumption; reflexivity.
Qed.

Lemma parse_root (e : Node) : parser_parse [e] = VObj [(nodeName e, compress e)].
Proof. reflexivity. Qed.

Lemma compress_children (name text : string) (children : list Node)
    (f : string * JsVal) (fs : list (string * JsVal)) :
  fold_left (fun obj c => addProperty (nodeName c) (compress c) obj) children [] =
    f :: fs ->
  compress (Element name [] text children) = VObj (textField text ++ f :: fs).
Proof.
  intros H. cbn [compress flat_map]. rewrite H. reflexivity.
Qed.

Lemma roundTrip_GameOptions (a m : bool) (l w h : Z) (defs : list ShipDefinition) :
  - 2 ^ 53 < l < 2 ^ 53 ->
  (2 <= length defs)%nat -> Forall wellTypedShip defs ->
  roundTrip (GameOptionsMessage (VBool a) (VBool m) (VNum l) (VNum w) (VNum h) defs) =
  inr (GameOptionsMessage (VBool a) (VBool m) (VNum l) (VNum w) (VNum h) defs).
Proof.
  intros Hl Hlen Hd. unfold roundTrip, toXML, toObject.
  rewrite mapE_ships by assumption. cbn [bindE].
  unfold builder_build. cbn [flat_map fst snd]. rewrite j2x_object.
  cbn [flat_map fst snd]. rewrite j2x_ships by assumption.
  rewrite !app_nil_r.
  destruct defs as [|d1 [|d2 defs]]; [cbn in Hlen; lia|cbn in Hlen; lia|].
  set (ships := map shipElement (d1 :: d2 :: defs)).
  cbn -[ships fromXML].
  unfold fromXML. rewrite parse_root.
  erewrite compress_children.
  2:{ change (fold_left ?f (?e1 :: ?e2 :: ?e3 :: ?e4 :: ?e5 :: ships) [])
        with (fold_left f ships (fold_left f [e1; e2; e3; e4; e5] [])).
      cbn -[ships fold_left]. cbn [fold_left]. cbn -[ships fold_left].
      unfold buildAttrPair. cbn [ToString].
      pose proof (Number_toString_not_true l) as N1.
      apply String.eqb_neq in N1. rewrite N1.
      cbn -[ships fold_left].
      rewrite !parseTextData_number, !parseTextData_boolean.
      rewrite !tagValue_number, !tagValue_boolean.
      cbn -[ships fold_left].
      subst ships. rewrite fold_ships_all by (reflexivity || assumption).
      cbn [app]. reflexivity. }
  unfold textField.
  destruct (parseTextData ""); cbn -[compress shipElement map mapE];
    rewrite decode_ships by assumption; unfold parseInt; cbn;
    rewrite parseInt_Number_toString by assumption; reflexivity.
Qed.

Ltac decode :=
  unfold roundTrip, toXML, fromXML; cbn -[tagValue];
  rewrite ?parseTextData_number, ?parseTextData_true, ?tagValue_number,
          ?tagValue_boolean;
  repeat match goal with
         | H : tagValue _ = VStr _ |- _ => rewrite H; clear H
         end;
  destruct (parseTextData ""); cbn.

(** Where the round trip does hold.  On a platform that reads integers
    and booleans back as it wrote them, decoding the encoding of a message
    gives the message back when its numbers are integers (safe integers
    where [parseInt] reads them), its strings are strings that the parser
    hands back unchanged, it carries a sink span exactly when it is a Sink
    notification, no coordinate of the span is zero, and (GameOptions) it
    lists at least two ship definitions. *)
Lemma roundTrip_inverse (m : Message) : roundTrips m -> roundTrip m = inr m.
Proof.
  destruct m; cbn [roundTrips]; intros H.
  - destruct H as ((s1 & -> & H1) & (s2 & -> & H2) & (n & ->) & (s3 & -> & H3)).
    decode; reflexivity.
  - destruct H as ((b & ->) & (s & -> & H)).
    decode; reflexivity.
  - destruct H as (s & -> & H). decode; reflexivity.
  - decode; reflexivity.
  - destruct H as ((a & ->) & (b & ->)). decode; reflexivity.
  - destruct H as ((a & ->) & (b & ->) & H).
    destruct fieldState, sinkCoordinates as [[[a1 b1] [a2 b2]]|];
      try contradiction.
    + decode; reflexivity.
    + decode; reflexivity.
    + cbn [fst snd] in H.
      destruct H as ((n1 & -> & N1) & (n2 & -> & N2) &
                     (n3 & -> & N3) & (n4 & -> & N4)).
      apply Z.eqb_neq in N1, N2, N3, N4.
      decode; unfold tagValue; rewrite ?parseTextData_true; cbn;
        rewrite ?N1, ?N2, ?N3, ?N4; reflexivity.
  - decode; reflexivity.
  - decode; reflexivity.
  - destruct H as ((s1 & -> & H1) & (s2 & -> & H2)). decode; reflexivity.
  - destruct H as ((a & ->) & (b & ->) & (l & -> & Hl) & (w & ->) & (h & ->) &
                   Hlen & Hd).
    now apply roundTrip_GameOptions.
Qed.

(** *** Where encoding, then decoding, gives something else *)

(** A string that is the text of a number is read back as the number. *)
Lemma roundTrip_Nick_number (n : Z) :
  roundTrip (NickMessage (VStr (Number_toString n))) = inr (NickMessage (VNum n)).
Proof. decode; reflexivity. Qed.

(** A span is written for a Sink only. *)
Lemma roundTrip_Miss_span (x y : Z) (span : Coordinates) :
  roundTrip (NotificationMessage (VNum x) (VNum y) Miss (Some span)) =
  inr (NotificationMessage (VNum x) (VNum y) Miss None).
Proof. decode; reflexivity. Qed.

(** A Sink without a span cannot be encoded. *)
Lemma toXML_Sink_no_span (x y : JsVal) :
  toXML (NotificationMessage x y Sink None) = inl TypeError.
Proof. reflexivity. Qed.

(** [fromXML] tests the four corner fields for truth, and zero is not
    true: a span with a zero in it is dropped. *)
Lemma roundTrip_Sink_zero (x y ystart xstop ystop : Z) :
  roundTrip (NotificationMessage (VNum x) (VNum y) Sink
               (Some ((VNum 0, VNum ystart), (VNum xstop, VNum ystop)))) =
  inr (NotificationMessage (VNum x) (VNum y) Sink None).
Proof.
  decode; unfold tagValue; rewrite ?parseTextData_true; cbn; reflexivity.
Qed.

(** One ship definition comes back as an object, none as nothing, and
    [fromXML] calls [map] on it. *)
Lemma roundTrip_one_ship (a m : bool) (l w h : Z) (d : ShipDefinition) :
  wellTypedShip d ->
  roundTrip (GameOptionsMessage (VBool a) (VBool m) (VNum l) (VNum w) (VNum h) [d]) =
  inl TypeError.
Proof.
  intros Hd. unfold roundTrip, toXML, toObject.
  rewrite mapE_ships by (now constructor). cbn [bindE].
  unfold builder_build. cbn [flat_map fst snd]. rewrite j2x_object.
  cbn [flat_map fst snd]. rewrite j2x_ships by (now constructor).
  rewrite !app_nil_r. cbn [map].
  destruct (compress_ship d Hd) as (pre & E & _).
  set (ship := shipElement d) in *.
  cbn -[ship fromXML compress]. unfold fromXML. rewrite parse_root.
  erewrite compress_children.
  2:{ cbn -[ship compress]. rewrite E. reflexivity. }
  unfold textField.
  destruct (parseTextData ""); cbn -[compress]; unfold buildAttrPair;
    cbn [ToString];
    pose proof (Number_toString_not_true l) as N1;
    apply String.eqb_neq in N1; rewrite N1;
    cbn; rewrite ?parseTextData_number, ?parseTextData_boolean; reflexivity.
Qed.

End RoundTrip.

(** ** The session *)

Ltac unfold_m :=
  unfold socket_write, emit, effect, assign, this, lift, throw, ret, bind.

Ltac case_find H :=
  match goal with
  | |- context [find ?f ?l] => destruct (find f l) eqn:H
  end.

Section ClientFacts.
Context {P : Platform}.

Lemma GameState_eqb_eq (a b : GameState) :
  GameState_eqb a b = true <-> a = b.
Proof.
  split; [|intros ->; now destruct b].
  destruct a, b; simpl; congruence.
Qed.

Lemma GameState_eqb_neq (a b : GameState) :
  GameState_eqb a b = false <-> a <> b.
Proof.
  rewrite <- GameState_eqb_eq. destruct (GameState_eqb a b); split; congruence.
Qed.

Lemma Position_eqb_eq (p q : Position) :
  Position_eqb p q = true <-> p = q.
Proof.
  destruct p as [a b], q as [a' b']. unfold Position_eqb. simpl.
  rewrite andb_true_iff, !Z.eqb_eq. split; [intros [-> ->]|intros [= -> ->]]; auto.
Qed.

(** *** Firing *)

(** C2.  A fire request made in a phase other than FIRE_SHIPS_SELF, or at
    a position that is already in [firedAt], is rejected with an [Error];
    the client is left as it was, nothing is written to the socket (no
    Move message) and no listener is registered. *)
Theorem sendFireAt_rejected (c : NavalClient) (position : Position) :
  _gameState c <> FIRE_SHIPS_SELF \/ In position (firedAt c) ->
  exists message, sendFireAt position c = (inl (Error message), c, []).
Proof.
  intros H. unfold sendFireAt. unfold_m.
  destruct (GameState_eqb (_gameState c) FIRE_SHIPS_SELF) eqn:Hs; cbn.
  - apply GameState_eqb_eq in Hs.
    destruct H as [H|H]; [contradiction|].
    case_find Hfind.
    + now eexists.
    + apply (find_none _ _ Hfind) in H. cbn in H.
      now rewrite !Z.eqb_refl in H.
  - now eexists.
Qed.

(** An accepted fire request registers its listener and writes the Move;
    the game state is not assigned. *)
Lemma sendFireAt_accepted (c : NavalClient) (position : Position) (s : Socket) :
  _gameState c = FIRE_SHIPS_SELF -> ~ In position (firedAt c) ->
  socket c = Some s ->
  exists move,
    toXML (MoveMessage (VNum (fst position)) (VNum (snd position))) = inr move /\
    sendFireAt position c =
      (inr tt, set_rawListeners (rawListeners c ++ [position]) c,
       [SocketWrite move]).
Proof.
  intros Hs Hnot Hsock. eexists. split; [reflexivity|].
  unfold sendFireAt. unfold_m. rewrite Hs. cbn.
  case_find Hfind.
  - apply find_some in Hfind. destruct Hfind as [Hin Heq].
    apply andb_true_iff in Heq. rewrite !Z.eqb_eq in Heq.
    destruct p, position; cbn in *. destruct Heq; subst. contradiction.
  - cbn. rewrite Hsock. reflexivity.
Qed.

Lemma sendFireAt_gameState (c : NavalClient) (position : Position) :
  _gameState (client (sendFireAt position c)) = _gameState c.
Proof.
  unfold sendFireAt. unfold_m.
  destruct (GameState_eqb (_gameState c) FIRE_SHIPS_SELF); cbn; [|reflexivity].
  case_find Hfind; cbn; [reflexivity|].
  destruct (socket c); reflexivity.
Qed.

(** *** Messages from the peer *)

(** The pending shots listen to every message, and act on notifications
    only. *)
Lemma runListeners_other (xmlStr : Document) (m : Message)
    (listeners : list Position) (c : NavalClient) :
  fromXML xmlStr = inr m ->
  (forall x y f s, m <> NotificationMessage x y f s) ->
  runListeners xmlStr listeners c = (inr tt, c, []).
Proof.
  intros Hm Hother. induction listeners as [|position rest IH]; [reflexivity|].
  cbn [runListeners]. unfold waitForNotification. unfold_m. rewrite Hm.
  destruct m; try (now rewrite IH); now destruct (Hother x y fieldState sinkCoordinates).
Qed.

Lemma emit_raw_other (xmlStr : Document) (m : Message) (c : NavalClient) :
  fromXML xmlStr = inr m ->
  (forall x y f s, m <> NotificationMessage x y f s) ->
  emit_raw xmlStr c = (inr tt, c, [Emit (EvRaw xmlStr)]).
Proof.
  intros Hm Hother. unfold emit_raw. unfold_m.
  now rewrite (runListeners_other xmlStr m _ c Hm Hother).
Qed.

(** C5.  A Begin message that arrives on the socket is written back,
    [firedAt] is emptied, the game state becomes FIRE_SHIPS_OTHER and
    ['begin'] is emitted with a flag that is false when the state was
    SHIP_SETUP and true when it was anything else. *)
Theorem begin_received (c : NavalClient) (xmlStr : Document) :
  fromXML xmlStr = inr BeginMessage -> socket c <> None ->
  exists echo restartDetected,
    toXML BeginMessage = inr echo /\
    (_gameState c = SHIP_SETUP -> restartDetected = false) /\
    (_gameState c <> SHIP_SETUP -> restartDetected = true) /\
    onData xmlStr c =
      (inr tt,
       set_gameState FIRE_SHIPS_OTHER (set_firedAt [] c),
       [Emit (EvRaw xmlStr); SocketWrite echo; Emit (EvBegin restartDetected)]).
Proof.
  intros Hm Hsock.
  exists (builder_build (VObj [("kmessage", VObj [msgtype 3 "Begin"])]))%string.
  exists (negb (GameState_eqb (_gameState c) SHIP_SETUP)).
  split; [reflexivity|]. split; [|split].
  - intros ->. reflexivity.
  - intros Hn. apply GameState_eqb_neq in Hn. now rewrite Hn.
  - unfold onData. unfold bind at 1.
    rewrite (emit_raw_other xmlStr BeginMessage c Hm) by discriminate.
    unfold handleMessage. unfold_m. rewrite Hm.
    destruct (socket c) as [s|] eqn:Hs; [|contradiction].
    reflexivity.
Qed.

(** C10.  A Nick message that arrives on the socket, whatever the game
    state, is answered with the client's own Nick; the game state becomes
    SHIP_SETUP, the opponent becomes the player of that nickname who is not
    [me], and ['connect'] is emitted with that player. *)
Theorem nick_received (c : NavalClient) (xmlStr : Document) (nickname' : JsVal) :
  fromXML xmlStr = inr (NickMessage nickname') -> socket c <> None ->
  exists myNick,
    toXML (NickMessage (VStr (nickname c))) = inr myNick /\
    let opponent' := {| Player.me := false; Player.nickname := nickname' |} in
    onData xmlStr c =
      (inr tt,
       set_opponent (Some opponent') (set_gameState SHIP_SETUP c),
       [Emit (EvRaw xmlStr); SocketWrite myNick; Emit (EvConnect opponent')]).
Proof.
  intros Hm Hsock.
  eexists. split; [reflexivity|]. intros opponent'.
  unfold onData. unfold bind at 1.
  rewrite (emit_raw_other xmlStr (NickMessage nickname') c Hm) by discriminate.
  unfold handleMessage. unfold_m. rewrite Hm.
  destruct (socket c) as [s|] eqn:Hs; [|contradiction].
  cbn. rewrite Hs. reflexivity.
Qed.

(** *** Which fields a method leaves alone *)

Lemma keeps_ret {X A} (field : NavalClient -> X) (a : A) : keeps field (ret a).
Proof. intros c. reflexivity. Qed.

Lemma keeps_throw {X A} (field : NavalClient -> X) (e : JsError) :
  keeps field (@throw A e).
Proof. intros c. reflexivity. Qed.

Lemma keeps_this {X} (field : NavalClient -> X) : keeps field this.
Proof. intros c. reflexivity. Qed.

Lemma keeps_effect {X} (field : NavalClient -> X) (e : Effect) :
  keeps field (effect e).
Proof. intros c. reflexivity. Qed.

Lemma keeps_lift {X A} (field : NavalClient -> X) (r : JsError + A) :
  keeps field (lift r).
Proof. intros c. now destruct r. Qed.

Lemma keeps_assign {X} (field : NavalClient -> X) (f : NavalClient -> NavalClient) :
  (forall c, field (f c) = field c) -> keeps field (assign f).
Proof. intros H c. apply H. Qed.

Lemma keeps_bind {X A B} (field : NavalClient -> X) (m : M A) (f : A -> M B) :
  keeps field m -> (forall a, keeps field (f a)) -> keeps field (bind m f).
Proof.
  intros Hm Hf c. unfold bind.
  destruct (m c) as [[[e|a] c1] out] eqn:E.
  - specialize (Hm c). now rewrite E in Hm.
  - specialize (Hf a c1). specialize (Hm c). rewrite E in Hm.
    destruct (f a c1) as [[r c2] out']. cbn in *. congruence.
Qed.

Lemma keeps_socket_write {X} (field : NavalClient -> X) (data : JsError + Document) :
  keeps field (socket_write data).
Proof.
  intros c. unfold socket_write. unfold_m.
  destruct (socket c); [|reflexivity]. now destruct data.
Qed.

Ltac keeps_step :=
  first
    [ apply keeps_ret | apply keeps_throw | apply keeps_this
    | apply keeps_effect | apply keeps_lift | apply keeps_socket_write
    | apply keeps_assign; intros []; reflexivity
    | apply keeps_bind; [|intros ?]
    | match goal with
      | |- keeps _ (match ?x with _ => _ end) => destruct x
      end ].

Ltac keeps_tac := repeat keeps_step.

Lemma waitForNotification_keeps_socket (position : Position) (xmlStr : Document) :
  keeps socket (waitForNotification position xmlStr).
Proof. unfold waitForNotification. keeps_tac. Qed.

Lemma runListeners_keeps_socket (xmlStr : Document) (listeners : list Position) :
  keeps socket (runListeners xmlStr listeners).
Proof.
  induction listeners as [|p rest IH]; cbn [runListeners].
  - apply keeps_ret.
  - apply keeps_bind; [apply waitForNotification_keeps_socket|now intros _].
Qed.

Lemma onData_keeps_socket (str : Document) : keeps socket (onData str).
Proof.
  unfold onData, emit_raw, handleMessage, emit.
  apply keeps_bind; [|intros _].
  - apply keeps_bind; [apply keeps_effect|intros _].
    apply keeps_bind; [apply keeps_this|intros c'].
    apply runListeners_keeps_socket.
  - keeps_tac.
Qed.

Lemma sendGameOver_unchanged (c : NavalClient) : client (sendGameOver c) = c.
Proof.
  apply (@keeps_bind NavalClient _ _ (fun c => c)); [apply keeps_this|intros c'].
  unfold emit. keeps_tac.
Qed.

(** *** Every client that has left DISCONNECTED has a socket *)

Lemma perform_socket (a : Action) (c : NavalClient) :
  socket c <> None -> socket (client (perform a c)) <> None.
Proof.
  intros Hs.
  assert (Hk : forall m : M unit, keeps socket m -> socket (client (m c)) <> None)
    by (intros m Hm; now rewrite Hm).
  destruct a; cbn [perform].
  - apply Hk. unfold sendChatMessage. keeps_tac.
  - now rewrite sendGameOver_unchanged.
  - apply Hk. unfold requestRestart. keeps_tac.
  - apply Hk. unfold sendMoveResponse, emit. keeps_tac.
  - apply Hk. unfold sendFireAt. keeps_tac.
  - unfold connect. unfold_m.
    destruct (GameState_eqb (_gameState c) DISCONNECTED); cbn; [discriminate|assumption].
  - unfold disconnect. unfold_m.
    destruct (GameState_eqb (_gameState c) DISCONNECTED); cbn; [assumption|].
    destruct (socket c) eqn:E; cbn; [discriminate|congruence].
  - apply Hk. apply onData_keeps_socket.
  - unfold onClose. unfold_m.
    destruct (socket c) as [s|] eqn:E; cbn; [|congruence].
    destruct (closeListeners s); cbn; [congruence|discriminate].
Qed.

Lemma perform_without_socket (a : Action) (c : NavalClient) :
  enabled a c = true -> socket c = None -> _gameState c = DISCONNECTED ->
  _gameState (client (perform a c)) = DISCONNECTED \/
  socket (client (perform a c)) <> None.
Proof.
  intros He Hs Hg.
  assert (Hk : forall m : M unit, keeps _gameState m ->
            _gameState (client (m c)) = DISCONNECTED \/
            socket (client (m c)) <> None)
    by (intros m Hm; left; now rewrite Hm).
  destruct a; cbn [perform]; cbn in He; try (rewrite Hs in He; discriminate).
  - apply Hk. unfold sendChatMessage. keeps_tac.
  - left. now rewrite sendGameOver_unchanged.
  - apply Hk. unfold requestRestart. keeps_tac.
  - left. unfold sendMoveResponse. unfold_m. now rewrite Hg.
  - left. now rewrite sendFireAt_gameState.
  - right. unfold connect. unfold_m. rewrite Hg. cbn. discriminate.
  - left. unfold disconnect. unfold_m. now rewrite Hg.
Qed.

Lemma run_socket (actions : list Action) (c c' : NavalClient) :
  _gameState c = DISCONNECTED \/ socket c <> None ->
  run actions c = Some c' ->
  _gameState c' = DISCONNECTED \/ socket c' <> None.
Proof.
  revert c. induction actions as [|a rest IH]; intros c Hinv; cbn [run].
  - now intros [= <-].
  - destruct (enabled a c) eqn:He; [|discriminate].
    apply IH.
    destruct (socket c) as [s|] eqn:Hs.
    + right. apply perform_socket. now rewrite Hs.
    + destruct Hinv as [Hg|Hn]; [|contradiction].
      now apply perform_without_socket.
Qed.

Lemma reachable_socket (c : NavalClient) :
  reachable c -> _gameState c <> DISCONNECTED -> socket c <> None.
Proof.
  intros (nick & actions & Hrun) Hg.
  assert (H0 : _gameState (new_NavalClient nick) = DISCONNECTED \/
               socket (new_NavalClient nick) <> None) by now left.
  destruct (run_socket actions _ c H0 Hrun); [contradiction|assumption].
Qed.

(** *** Answering a move *)

(** C9, as the code has it.  In AWAIT_RESPONSE_SELF, [sendMoveResponse]
    writes the notification to the socket, sets the game state to
    FIRE_SHIPS_SELF and emits ['canFire'], for every notification but a
    Sink that has no span: that one cannot be encoded, the call throws a
    [TypeError], and the client is left as it was, in AWAIT_RESPONSE_SELF,
    with nothing written or emitted.  In every other game state the call
    throws an [Error], whatever the notification, and the client is left
    as it was and nothing is written or emitted. *)
Theorem sendMoveResponse_spec (c : NavalClient) (x y : JsVal)
    (fieldState : FieldState) (sinkCoordinates : option Coordinates) :
  reachable c ->
  let notification := NotificationMessage x y fieldState sinkCoordinates in
  (_gameState c = AWAIT_RESPONSE_SELF ->
   (fieldState <> Sink \/ sinkCoordinates <> None ->
    exists xmlStr,
      toXML notification = inr xmlStr /\
      sendMoveResponse notification c =
        (inr tt, set_gameState FIRE_SHIPS_SELF c,
         [SocketWrite xmlStr; Emit EvCanFire])) /\
   (fieldState = Sink /\ sinkCoordinates = None ->
    sendMoveResponse notification c = (inl TypeError, c, []))) /\
  (_gameState c <> AWAIT_RESPONSE_SELF ->
   exists message,
     sendMoveResponse notification c = (inl (Error message), c, [])).
Proof.
  intros Hreach notification. split.
  - intros Hg.
    assert (Hs : socket c <> None)
      by (apply reachable_socket; [assumption|rewrite Hg; discriminate]).
    destruct (socket c) as [s|] eqn:E; [|contradiction].
    split.
    + intros Hspan.
      assert (Hxml : exists xmlStr, toXML notification = inr xmlStr).
      { unfold notification, toXML.
        destruct fieldState; cbn; try (now eexists).
        destruct sinkCoordinates as [[start stop]|]; [now eexists|].
        now destruct Hspan. }
      destruct Hxml as [xmlStr Hxml]. exists xmlStr. split; [assumption|].
      unfold sendMoveResponse. unfold_m. rewrite Hg. cbn.
      rewrite E, Hxml. reflexivity.
    + intros [-> ->]. unfold sendMoveResponse. unfold_m. rewrite Hg. cbn.
      rewrite E. reflexivity.
  - intros Hg. apply GameState_eqb_neq in Hg.
    unfold sendMoveResponse. unfold_m. rewrite Hg. cbn. now eexists.
Qed.

(** *** Closing *)

Lemma disconnect_connected (c : NavalClient) (s : Socket) :
  _gameState c <> DISCONNECTED -> socket c = Some s ->
  disconnect c =
    (inr tt,
     set_socket (Some {| ended := true; closeListeners := S (closeListeners s) |}) c,
     [SocketEnd]).
Proof.
  intros Hg Hs. apply GameState_eqb_neq in Hg.
  unfold disconnect. unfold_m. rewrite Hg, Hs. reflexivity.
Qed.

(** A socket that closes without [disconnect] having been called (the
    peer went away) changes nothing: no listener is on its ['close']
    event. *)
Lemma onClose_unexpected (c : NavalClient) (s : Socket) :
  socket c = Some s -> closeListeners s = O -> onClose c = (inr tt, c, []).
Proof.
  intros Hs Hl. unfold onClose. unfold_m. now rewrite Hs, Hl.
Qed.

(** The close that follows a [disconnect].  When [disconnect] is called
    in a game state other than DISCONNECTED and the socket then closes,
    the game state becomes DISCONNECTED, and that is all the listener
    assigns: the pending shots, the opponent and [firedAt] are as
    before. *)
Lemma disconnect_then_close (c : NavalClient) :
  reachable c -> _gameState c <> DISCONNECTED ->
  let r1 := disconnect c in
  let r2 := onClose (client r1) in
  result r1 = inr tt /\ effects r1 = [SocketEnd] /\
  result r2 = inr tt /\ effects r2 = [] /\
  _gameState (client r2) = DISCONNECTED /\
  rawListeners (client r2) = rawListeners c /\
  opponent (client r2) = opponent c /\
  firedAt (client r2) = firedAt c.
Proof.
  intros Hreach Hg r1 r2.
  destruct (socket c) as [s|] eqn:Hs;
    [|now destruct (reachable_socket c Hreach Hg)].
  subst r2 r1. rewrite (disconnect_connected c s Hg Hs).
  unfold onClose. unfold_m. cbn. repeat split; reflexivity.
Qed.

(** *** Notifications and pending shots *)

Lemma Position_eqb_sym (p q : Position) : Position_eqb p q = Position_eqb q p.
Proof.
  unfold Position_eqb. now rewrite (Z.eqb_sym (fst p)), (Z.eqb_sym (snd p)).
Qed.

Lemma off_first_match (position : Position) (kept rest : list Position) :
  (forall q, In q kept -> Position_eqb q position = false) ->
  off position (kept ++ position :: rest) = kept ++ rest.
Proof.
  induction kept as [|q kept IH]; intros Hk; cbn.
  - assert (E : Position_eqb position position = true)
      by now apply Position_eqb_eq.
    now rewrite E.
  - rewrite (Hk q (or_introl eq_refl)). f_equal.
    apply IH. intros q' Hq'. apply Hk. now right.
Qed.

(** What the listeners do with a notification for [(a, b)]: those that
    wait for [(a, b)] resolve, push their position and leave; the others
    stay. *)
Lemma runListeners_notification (xmlStr : Document) (a b : Z)
    (fieldState : FieldState) (sinkCoordinates : option Coordinates) :
  fromXML xmlStr =
    inr (NotificationMessage (VNum a) (VNum b) fieldState sinkCoordinates) ->
  forall (rest kept : list Position) (c : NavalClient),
    rawListeners c = kept ++ rest ->
    (forall q, In q kept -> Position_eqb (a, b) q = false) ->
    runListeners xmlStr rest c =
      (inr tt,
       set_rawListeners
         (kept ++ filter (fun p => negb (Position_eqb (a, b) p)) rest)
         (set_firedAt (firedAt c ++ filter (Position_eqb (a, b)) rest) c),
       map (fun p => Res p (NotificationMessage (VNum a) (VNum b)
                              fieldState sinkCoordinates))
           (filter (Position_eqb (a, b)) rest)).
Proof.
  intros Hm. induction rest as [|position rest IH]; intros kept c Hl Hk.
  - cbn. rewrite !app_nil_r. rewrite <- (app_nil_r kept), <- Hl.
    now destruct c.
  - cbn [runListeners filter]. unfold bind at 1.
    unfold waitForNotification. unfold_m. rewrite Hm.
    cbn [loose_eq_num].
    change ((a =? fst position) && (b =? snd position))
      with (Position_eqb (a, b) position).
    destruct (Position_eqb (a, b) position) eqn:E; cbn [negb].
    + cbn [fst snd app].
      rewrite IH with (kept := kept).
      * cbn. rewrite <- app_assoc. reflexivity.
      * cbn. rewrite Hl. apply off_first_match.
        intros q Hq. apply Position_eqb_eq in E. subst position.
        rewrite Position_eqb_sym. now apply Hk.
      * assumption.
    + cbn [fst snd app].
      rewrite IH with (kept := kept ++ [position]).
      * now rewrite <- app_assoc.
      * now rewrite <- app_assoc.
      * intros q Hq. apply in_app_or in Hq.
        destruct Hq as [Hq|[<-|[]]]; [now apply Hk|assumption].
Qed.

Lemma onData_notification (xmlStr : Document) (a b : Z)
    (fieldState : FieldState) (sinkCoordinates : option Coordinates)
    (c : NavalClient) :
  fromXML xmlStr =
    inr (NotificationMessage (VNum a) (VNum b) fieldState sinkCoordinates) ->
  onData xmlStr c =
    (inr tt,
     set_rawListeners
       (filter (fun p => negb (Position_eqb (a, b) p)) (rawListeners c))
       (set_firedAt (firedAt c ++ filter (Position_eqb (a, b)) (rawListeners c)) c),
     Emit (EvRaw xmlStr) ::
     map (fun p => Res p (NotificationMessage (VNum a) (VNum b)
                            fieldState sinkCoordinates))
         (filter (Position_eqb (a, b)) (rawListeners c))).
Proof.
  intros Hm. unfold onData, emit_raw. unfold_m.
  rewrite (runListeners_notification xmlStr a b _ _ Hm (rawListeners c) [] c)
    by (reflexivity || (intros q [])).
  unfold handleMessage. unfold_m. rewrite Hm. cbn.
  now rewrite app_nil_r.
Qed.











End ClientFacts.

(** ** The session of client [A], computed *)

Section Computed.
#[local] Existing Instance Decimal.platform.

(** C3.  After the handshake, a received move and its answer, it is [A]'s
    turn.  A fire request at (3, 4) is accepted and the game state stays
    FIRE_SHIPS_SELF; no code assigns AWAIT_RESPONSE_OTHER.  While that
    shot is pending, a second request at (5, 6) is accepted, and so is one
    at (3, 4) again: two shots are pending at once. *)
Theorem second_shot_accepted :
  let c := Scenario.after Scenario.myTurn in
  let r1 := sendFireAt (3, 4) c in
  let r2 := sendFireAt (5, 6) (client r1) in
  let r2' := sendFireAt (3, 4) (client r1) in
  _gameState c = FIRE_SHIPS_SELF /\
  result r1 = inr tt /\
  _gameState (client r1) = FIRE_SHIPS_SELF /\
  rawListeners (client r1) = [(3, 4)] /\
  result r2 = inr tt /\
  rawListeners (client r2) = [(3, 4); (5, 6)] /\
  result r2' = inr tt /\
  rawListeners (client r2') = [(3, 4); (3, 4)].
Proof. vm_compute. repeat split. Qed.

(** The game state does not follow the pending shot: when the peer's
    move arrives out of turn while the shot at (3, 4) is pending, it sets
    AWAIT_RESPONSE_SELF, and the notification for (3, 4) then resolves the
    shot in that state. *)
Lemma notification_after_move :
  let c := Scenario.after
             (Scenario.pending ++
              [Data (Scenario.xml (MoveMessage (VNum 1) (VNum 1)))]) in
  let r := onData (Scenario.notification 3 4) c in
  occurrences (3, 4) (rawListeners c) = 1%nat /\
  resolutions (3, 4) (effects r) = 1%nat /\
  firedAt (client r) = [(3, 4)] /\
  _gameState (client r) <> FIRE_SHIPS_SELF.
Proof. vm_compute. repeat split. discriminate. Qed.

(** C6.  The socket of [A] closes while the shot at (3, 4) is pending,
    and [disconnect] was not called: the peer went away.  No listener is
    on that close, and nothing happens: the game state stays
    FIRE_SHIPS_SELF, the shot stays registered and is not rejected, the
    opponent is still [B], and a new [connect] throws, as the client
    counts as connected.  When [disconnect] was called, the close sets
    DISCONNECTED, and the shot and the opponent stay all the same. *)
Theorem close_keeps_session :
  let c := Scenario.after Scenario.pending in
  let r1 := disconnect c in
  let r2 := onClose (client r1) in
  _gameState c = FIRE_SHIPS_SELF /\
  rawListeners c = [(3, 4)] /\
  opponent c = Some {| Player.me := false; Player.nickname := VStr "B" |} /\
  onClose c = (inr tt, c, []) /\
  Scenario.after (Scenario.pending ++ [Close]) = c /\
  connect 54321 "127.0.0.1" (client (onClose c)) =
    (inl (Error "already connected to a server"), c, []) /\
  _gameState (client r2) = DISCONNECTED /\
  rawListeners (client r2) = [(3, 4)] /\
  filter isRej (effects r1 ++ effects r2) = [] /\
  opponent (client r2) =
    Some {| Player.me := false; Player.nickname := VStr "B" |}.
Proof. vm_compute. repeat split. Qed.

(** C7.  [A] must answer a move (AWAIT_RESPONSE_SELF) and declares the
    game over instead: ['gameOver'] is emitted with the opponent and the
    GameOver message is written, but the game state is not assigned and is
    not GAME_OVER.  Right after answering a move, the call throws. *)
Theorem sendGameOver_keeps_gameState :
  let c := Scenario.after Scenario.fired in
  _gameState c = AWAIT_RESPONSE_SELF /\
  sendGameOver c =
    (inr tt, c,
     [Emit (EvGameOver (Some {| Player.me := false; Player.nickname := VStr "B" |}));
      SocketWrite (Scenario.xml GameOverMessage)]) /\
  _gameState (client (sendGameOver c)) <> GAME_OVER /\
  sendGameOver (Scenario.after Scenario.myTurn) =
    (inl (Error "you can only send game over after sending a move response"),
     Scenario.after Scenario.myTurn, []).
Proof. vm_compute. repeat split. discriminate. Qed.

(** C1.  Where decoding the encoding does not give the message back.
    The answer [respond("sink", [[0, 3], [0, 5]])] to a move at (0, 3), a
    ship in the first column, is written with its four corner fields and
    decoded without its span: [fromXML] tests the corner fields for truth,
    and 0 is not true; the decoded message cannot be written again.  Game
    options with a single ship definition are written and not decoded: one
    [ships] element is parsed as an object, and [fromXML] calls [map] on
    it.  The nickname 42, a string, is decoded as the number 42. *)
Theorem roundTrip_not_inverse :
  let span := Some ((VNum 0, VNum 3), (VNum 0, VNum 5)) in
  let options :=
    GameOptionsMessage (VBool true) (VBool false) (VNum 4) (VNum 10) (VNum 10)
      [Peer.frigate] in
  respond (VNum 0) (VNum 3) sink span =
    NotificationMessage (VNum 0) (VNum 3) Sink span /\
  roundTrip (respond (VNum 0) (VNum 3) sink span) =
    inr (NotificationMessage (VNum 0) (VNum 3) Sink None) /\
  toXML (NotificationMessage (VNum 0) (VNum 3) Sink None) = inl TypeError /\
  (exists xmlStr, toXML options = inr xmlStr) /\
  roundTrip options = inl TypeError /\
  roundTrip (NickMessage (VStr "42")) = inr (NickMessage (VNum 42)).
Proof. vm_compute. repeat split. now eexists. Qed.

(** Where C9 as stated fails: [A] must answer the move at (2, 2) and
    answers with a Sink that has no span.  The call throws a [TypeError];
    nothing is written, ['canFire'] is not emitted and the game state is
    still AWAIT_RESPONSE_SELF. *)
Lemma sendMoveResponse_counterexample :
  let c := Scenario.after Scenario.fired in
  let notification := respond (VNum 2) (VNum 2) sink None in
  _gameState c = AWAIT_RESPONSE_SELF /\
  sendMoveResponse notification c = (inl TypeError, c, []) /\
  _gameState (client (sendMoveResponse notification c)) <> FIRE_SHIPS_SELF.
Proof. vm_compute. repeat split. discriminate. Qed.

(** *** The theorems at work *)

Lemma roundTrip_inverse_witness :
  roundTrips Scenario.sunk /\
  roundTrip Scenario.sunk = inr Scenario.sunk /\
  roundTrip Scenario.defaultOptions = inr Scenario.defaultOptions.
Proof.
  assert (H : roundTrips Scenario.sunk).
  { cbn. repeat split; try (eexists; reflexivity);
      (eexists; split; [reflexivity|discriminate]). }
  split; [exact H|]. split.
  - exact (@roundTrip_inverse Decimal.platform Decimal_laws Scenario.sunk H).
  - apply (@roundTrip_inverse Decimal.platform Decimal_laws Scenario.defaultOptions).
    cbn. repeat split; try (eexists; reflexivity); try lia;
      try (eexists; split; [reflexivity|split; reflexivity]).
    repeat constructor; cbn;
      try (eexists; split; [reflexivity|split; reflexivity]);
      (eexists; split; [reflexivity|split; [discriminate|reflexivity]]).
Defined.

Lemma fromXML_decode_failure_witness :
  (exists message, fromXML [] = inl (Error message)) /\
  (exists message, fromXML Scenario.unknown = inl (Error message)).
Proof.
  split.
  - apply fromXML_decode_failure. left. reflexivity.
  - apply fromXML_decode_failure. right. exists 10. split; [reflexivity|lia].
Defined.

Lemma sendFireAt_rejected_witness :
  (exists message,
     sendFireAt (3, 4) (Scenario.after Scenario.fired) =
       (inl (Error message), Scenario.after Scenario.fired, [])) /\
  (exists message,
     let c := client (onData (Scenario.notification 3 4)
                             (Scenario.after Scenario.pending)) in
     sendFireAt (3, 4) c = (inl (Error message), c, [])).
Proof.
  split.
  - apply sendFireAt_rejected. left. vm_compute. discriminate.
  - apply sendFireAt_rejected. right. vm_compute. now left.
Defined.


Lemma begin_received_witness :
  let c := Scenario.after (firstn 3 Scenario.begun) in
  exists echo,
    onData (Scenario.xml BeginMessage) c =
      (inr tt, set_gameState FIRE_SHIPS_OTHER (set_firedAt [] c),
       [Emit (EvRaw (Scenario.xml BeginMessage)); SocketWrite echo;
        Emit (EvBegin false)]).
Proof.
  intros c.
  destruct (begin_received c (Scenario.xml BeginMessage))
    as (echo & restartDetected & _ & Hsetup & _ & H).
  - vm_compute. reflexivity.
  - vm_compute. discriminate.
  - exists echo. rewrite H. rewrite Hsetup; reflexivity.
Defined.

Lemma nick_received_witness :
  let c := Scenario.after Scenario.myTurn in
  exists myNick,
    let opponent' := {| Player.me := false; Player.nickname := VStr "C" |} in
    onData (Scenario.xml (NickMessage (VStr "C"))) c =
      (inr tt, set_opponent (Some opponent') (set_gameState SHIP_SETUP c),
       [Emit (EvRaw (Scenario.xml (NickMessage (VStr "C"))));
        SocketWrite myNick; Emit (EvConnect opponent')]).
Proof.
  intros c.
  destruct (nick_received c (Scenario.xml (NickMessage (VStr "C"))) (VStr "C"))
    as (myNick & _ & H).
  - vm_compute. reflexivity.
  - vm_compute. discriminate.
  - exists myNick. exact H.
Defined.

Lemma sendMoveResponse_spec_witness :
  let c := Scenario.after Scenario.fired in
  (exists xmlStr,
     sendMoveResponse Scenario.sunk c =
       (inr tt, set_gameState FIRE_SHIPS_SELF c,
        [SocketWrite xmlStr; Emit EvCanFire])) /\
  sendMoveResponse (NotificationMessage (VNum 2) (VNum 3) Sink None) c =
    (inl TypeError, c, []) /\
  (exists message,
     sendMoveResponse Scenario.sunk (Scenario.after Scenario.begun) =
       (inl (Error message), Scenario.after Scenario.begun, [])).
Proof.
  intros c. split; [|split].
  - destruct (sendMoveResponse_spec c (VNum 2) (VNum 3) Sink
                (Some ((VNum 2, VNum 2), (VNum 2, VNum 4))))
      as [Hok _].
    + exists "A"%string, Scenario.fired. vm_compute. reflexivity.
    + destruct Hok as [Hok _]; [vm_compute; reflexivity|].
      destruct Hok as (xmlStr & _ & H); [right; discriminate|].
      exists xmlStr. exact H.
  - destruct (sendMoveResponse_spec c (VNum 2) (VNum 3) Sink None) as [Hno _].
    + exists "A"%string, Scenario.fired. vm_compute. reflexivity.
    + destruct Hno as [_ Hno]; [vm_compute; reflexivity|].
      apply Hno. split; reflexivity.
  - destruct (sendMoveResponse_spec (Scenario.after Scenario.begun)
                (VNum 2) (VNum 3) Sink
                (Some ((VNum 2, VNum 2), (VNum 2, VNum 4))))
      as [_ Hno].
    + exists "A"%string, Scenario.begun. vm_compute. reflexivity.
    + apply Hno. vm_compute. discriminate.
Defined.

Lemma disconnect_then_close_witness :
  let c := Scenario.after Scenario.pending in
  _gameState (client (onClose (client (disconnect c)))) = DISCONNECTED /\
  rawListeners (client (onClose (client (disconnect c)))) = rawListeners c.
Proof.
  intros c.
  destruct (disconnect_then_close c) as (_ & _ & _ & _ & G & R & _).
  - exists "A"%string, Scenario.pending. vm_compute. reflexivity.
  - vm_compute. discriminate.
  - split; assumption.
Defined.

End Computed.

(** * More properties of the code *)

(** ** The codec: what [toXML] and [fromXML] accept *)

Ltac decode_doc :=
  unfold roundTrip, toXML, fromXML; cbn -[tagValue];
  rewrite ?parseTextData_number, ?parseTextData_true, ?tagValue_number,
          ?tagValue_boolean;
  repeat match goal with
         | H : tagValue _ = VStr _ |- _ => rewrite H; clear H
         end;
  destruct (parseTextData ""); cbn.

Ltac step_get :=
  match goal with
  | |- context [bindE (get ?v ?k) _] => destruct (get v k); cbn [bindE]
  end.

Section CodecEdges.
Context {P : Platform}.

Lemma toString_inl (v : JsVal) (e : JsError) :
  toString v = inl e -> v = VUndef /\ e = TypeError.
Proof. destruct v; cbn; try discriminate. now intros [= <-]. Qed.

(** The ship definitions are written unless one of them lacks its number
    or its size. *)
Lemma mapE_ships_inl (defs : list ShipDefinition) :
  (forall e,
     mapE (fun definition =>
             n <- toString (number definition) ;;
             s <- toString (size definition) ;;
             inr (VObj [("$name", name definition);
                        ("$number", n);
                        ("$pluralName", plural definition);
                        ("$size", s)])%string) defs = inl e ->
     e = TypeError /\
     Exists (fun d => number d = VUndef \/ size d = VUndef) defs) /\
  (Exists (fun d => number d = VUndef \/ size d = VUndef) defs ->
   mapE (fun definition =>
           n <- toString (number definition) ;;
           s <- toString (size definition) ;;
           inr (VObj [("$name", name definition);
                      ("$number", n);
                      ("$pluralName", plural definition);
                      ("$size", s)])%string) defs = inl TypeError).
Proof.
  induction defs as [|d defs [IH1 IH2]]; split.
  - discriminate.
  - intros H. inversion H.
  - intros e. cbn [mapE].
    destruct (toString (number d)) as [e1|n] eqn:E1; cbn [bindE].
    + intros [= <-]. apply toString_inl in E1. destruct E1 as [E1 ->].
      split; [reflexivity|]. left. now left.
    + destruct (toString (size d)) as [e2|s] eqn:E2; cbn [bindE].
      * intros [= <-]. apply toString_inl in E2. destruct E2 as [E2 ->].
        split; [reflexivity|]. left. now right.
      * match goal with
        | |- context [mapE ?f defs] => destruct (mapE f defs) as [e3|l] eqn:E3
        end; cbn [bindE]; [|discriminate].
        intros [= <-]. destruct (IH1 e3 eq_refl) as [-> Hex].
        split; [reflexivity|now right].
  - intros H. cbn [mapE].
    destruct (toString (number d)) as [e1|n] eqn:E1; cbn [bindE].
    + apply toString_inl in E1. now destruct E1 as [_ ->].
    + destruct (toString (size d)) as [e2|s] eqn:E2; cbn [bindE].
      * apply toString_inl in E2. now destruct E2 as [_ ->].
      * inversion H as [? ? [Hn|Hs]|? ? Hex]; subst.
        -- rewrite Hn in E1. discriminate.
        -- rewrite Hs in E2. discriminate.
        -- now rewrite (IH2 Hex).
Qed.

(** X1.  [toXML] throws on exactly two kinds of message: a Sink
    notification that has no span, and game options with a ship definition
    whose number or size is undefined.  What it throws is a [TypeError];
    every other message, whatever its field values, is written. *)
Theorem toXML_fails (m : Message) :
  (forall e, toXML m = inl e -> e = TypeError /\ unencodable m) /\
  (unencodable m -> toXML m = inl TypeError).
Proof.
  unfold toXML.
  destruct m as [pv cn cv cd|vm rs|nk| |mx my|nx ny fs sc| | |tx nn|a0 m0 l0 w0 h0 defs];
    cbn [unencodable]; try (split; [discriminate|contradiction]).
  - destruct fs, sc as [[start stop]|]; cbn;
      try (split; [discriminate|contradiction]).
    split; [now intros e [= <-]|reflexivity].
  - cbn [toObject]. destruct (mapE_ships_inl defs) as [H1 H2]. split.
    + intros e.
      match goal with
      | |- context [mapE ?f defs] => destruct (mapE f defs) as [e3|l] eqn:E3
      end; cbn [bindE]; [|discriminate].
      intros [= <-]. now apply H1.
    + intros H. now rewrite (H2 H).
Qed.

(** X2.  Whenever the type code that [fromXML] reads from the parsed
    document, [kmessage.msgtype['#text']], is a number from 0 to 8,
    [fromXML] returns a message of the class of that code: it checks
    nothing else in the document. *)
Theorem fromXML_known_code (xmlStr : Document) (n : Z) :
  typeNumOf xmlStr = inr (VNum n) -> 0 <= n <= 8 ->
  exists m, fromXML xmlStr = inr m /\ wireCode m = n.
Proof.
  unfold typeNumOf, kmessageOf, fromXML. intros H Hn.
  destruct (get (parser_parse xmlStr) "kmessage") as [e|kmessage]; [discriminate|].
  cbn [bindE] in *.
  destruct (get_inr_object _ _ _ _ H) as [fields ->].
  cbn [truthy negb].
  destruct (get (VObj fields) "msgtype") as [e|msgtype]; [discriminate|].
  cbn [bindE] in *. rewrite H. cbn [bindE get].
  destruct n as [|p|p]; [| |lia].
  - eexists; split; reflexivity.
  - do 4 (try destruct p as [p|p|]; try lia); eexists; split; reflexivity.
Qed.

Lemma mapE_decode_ships (items : list JsVal) :
  ~ In VUndef items ->
  exists defs,
    mapE (fun x : JsVal =>
            name <- get x "$name" ;;
            plural <- get x "$pluralName" ;;
            number <- get x "$number" ;;
            size <- get x "$size" ;;
            inr {| name := name; plural := plural;
                   number := parseInt number; size := parseInt size |}) items =
      inr defs /\
    length defs = length items.
Proof.
  induction items as [|x items IH]; intros Hno.
  - exists []. split; reflexivity.
  - destruct IH as (defs & E & Hlen); [intros H; apply Hno; now right|].
    assert (Hx : x <> VUndef) by (intros ->; apply Hno; now left).
    cbn [mapE]. rewrite E.
    destruct x; try contradiction; cbn; eexists; (split; [reflexivity|]);
      cbn; now rewrite Hlen.
Qed.

(** X3.  A document with type code 9 is decoded exactly when its root has
    a [oneOrSeveralShips] property and its [ships] property is an array
    (two or more [ships] elements) with no undefined item; otherwise
    [fromXML] throws a [TypeError].  The decoded message has one ship
    definition per item. *)
Theorem fromXML_GameOptions (xmlStr : Document) :
  typeNumOf xmlStr = inr (VNum 9) ->
  let fields := fieldsOf xmlStr in
  (lookup "oneOrSeveralShips" fields = VUndef \/
   (forall items, lookup "ships" fields <> VArr items) \/
   (exists items, lookup "ships" fields = VArr items /\ In VUndef items) ->
   fromXML xmlStr = inl TypeError) /\
  (forall items,
     lookup "oneOrSeveralShips" fields <> VUndef ->
     lookup "ships" fields = VArr items -> ~ In VUndef items ->
     exists a m l w h defs,
       fromXML xmlStr = inr (GameOptionsMessage a m l w h defs) /\
       length defs = length items).
Proof.
  unfold fieldsOf, typeNumOf, kmessageOf, fromXML. intros H.
  destruct (get (parser_parse xmlStr) "kmessage") as [e|kmessage]; [discriminate|].
  cbn [bindE] in *.
  destruct (get_inr_object _ _ _ _ H) as [fields ->].
  cbn [truthy negb].
  destruct (get (VObj fields) "msgtype") as [e|msgtype]; [discriminate|].
  cbn [bindE] in *. rewrite H. cbn [bindE get].
  split.
  - intros [Ho|[Hs|(items & Hs & Hin)]].
    + rewrite Ho. reflexivity.
    + destruct (lookup "oneOrSeveralShips" fields); try reflexivity; cbn;
        destruct (lookup "ships" fields) eqn:E; try reflexivity;
        exfalso; eapply Hs; reflexivity.
    + assert (Hm : forall f : JsVal -> JsError + ShipDefinition,
                (forall x, f x = inl TypeError \/ exists d, f x = inr d) ->
                f VUndef = inl TypeError -> mapE f items = inl TypeError).
      { intros f Hf Hu. clear Hs.
        induction items as [|x items IH]; [contradiction|].
        cbn [mapE]. destruct Hin as [->|Hin].
        - now rewrite Hu.
        - destruct (Hf x) as [->|[d ->]]; [reflexivity|]. cbn [bindE].
          now rewrite (IH Hin). }
      rewrite Hs.
      destruct (lookup "oneOrSeveralShips" fields); try reflexivity; cbn;
        rewrite Hm; try reflexivity;
        intros x;
        (destruct x; [left; reflexivity|right; eexists; reflexivity..]).
  - intros items Ho Hs Hno. rewrite Hs.
    destruct (mapE_decode_ships items Hno) as (defs & E & Hlen).
    destruct (lookup "oneOrSeveralShips" fields); try contradiction;
      cbn; rewrite E; cbn; do 6 eexists; (split; [reflexivity|assumption]).
Qed.

Lemma mapE_Forall {A B : Type} (f : A -> JsError + B) (Q : B -> Prop)
    (l : list A) (bs : list B) :
  (forall x b, f x = inr b -> Q b) -> mapE f l = inr bs -> Forall Q bs.
Proof.
  intros Hf. revert bs. induction l as [|x l IH]; intros bs; cbn [mapE].
  - intros [= <-]. constructor.
  - destruct (f x) as [e|b] eqn:E; cbn [bindE]; [discriminate|].
    destruct (mapE f l) as [e|bs'] eqn:E'; cbn [bindE]; [discriminate|].
    intros [= <-]. constructor; [now apply (Hf x)|now apply IH].
Qed.

Lemma parseInt_defined (v : JsVal) : parseInt v <> VUndef.
Proof. unfold parseInt. now destruct (parseInt_string (ToString v)). Qed.

(** The ship definitions of decoded game options have a number and a
    size: both come out of [parseInt]. *)
Lemma fromXML_GameOptions_inv (xmlStr : Document) (a m l w h : JsVal)
    (defs : list ShipDefinition) :
  fromXML xmlStr = inr (GameOptionsMessage a m l w h defs) ->
  Forall (fun d => number d <> VUndef /\ size d <> VUndef) defs.
Proof.
  unfold fromXML. cbn zeta.
  destruct (get (parser_parse xmlStr) "kmessage") as [e|kmessage];
    cbn [bindE]; [discriminate|].
  destruct (negb (truthy kmessage)); [discriminate|].
  destruct (get kmessage "msgtype") as [e|msgtype]; cbn [bindE]; [discriminate|].
  destruct (get msgtype "#text") as [e|typeNum]; cbn [bindE]; [discriminate|].
  destruct typeNum as [| |n| | | |]; try discriminate.
  destruct n as [|p|p]; [| |discriminate].
  - repeat step_get; discriminate.
  - do 4 (try destruct p as [p|p|]); try discriminate;
      try (repeat step_get; unfold new_NotificationMessage; discriminate).
    repeat step_get; try discriminate.
    unfold array_map.
    match goal with
    | |- context [match ?s with VArr _ => _ | _ => _ end] => destruct s
    end; try discriminate.
    match goal with
    | |- context [mapE ?f ?l] => destruct (mapE f l) as [e|defs'] eqn:E
    end; cbn [bindE]; [discriminate|].
    intros [= _ _ _ _ _ <-].
    eapply mapE_Forall; [|exact E].
    intros x b. cbn beta.
    repeat step_get; try discriminate.
    intros [= <-]. cbn. split; apply parseInt_defined.
Qed.

Lemma encodes_defined (a m l w h : JsVal) (defs : list ShipDefinition) :
  Forall (fun d => number d <> VUndef /\ size d <> VUndef) defs ->
  exists xmlStr, toXML (GameOptionsMessage a m l w h defs) = inr xmlStr.
Proof.
  intros Hd. unfold toXML. cbn [toObject].
  destruct (mapE_ships_inl defs) as [H1 _].
  match goal with
  | |- context [mapE ?f defs] => destruct (mapE f defs) as [e|ships] eqn:E
  end.
  - destruct (H1 e eq_refl) as [_ Hex]. apply Exists_exists in Hex.
    destruct Hex as (d & Hin & Hu). rewrite Forall_forall in Hd.
    destruct (Hd d Hin) as [Hn Hs]. now destruct Hu.
  - cbn. now eexists.
Qed.

(** X5.  What [fromXML] returns can be written again by [toXML], with one
    exception: a Sink notification that was decoded without its span. *)
Theorem fromXML_reencodes (xmlStr : Document) (m : Message) :
  fromXML xmlStr = inr m ->
  (exists xmlStr', toXML m = inr xmlStr') \/
  (exists x y, m = NotificationMessage x y Sink None).
Proof.
  intros Hm. destruct (toXML m) as [e|d] eqn:E; [|left; now eexists].
  right. unfold toXML in E.
  destruct m as [pv cn cv cd|vm rs|nk| |mx my|nx ny fs sc| | |tx nn|a0 m0 l0 w0 h0 defs];
    cbn [toObject bindE] in E; try discriminate.
  - destruct fs; try discriminate.
    destruct sc as [[start stop]|]; [discriminate|]. now do 2 eexists.
  - exfalso.
    destruct (encodes_defined a0 m0 l0 w0 h0 defs
                (fromXML_GameOptions_inv _ _ _ _ _ _ _ Hm)) as [d Hd].
    unfold toXML in Hd. cbn [toObject] in Hd. rewrite E in Hd. discriminate.
Qed.

(** *** The type code of an encoded message *)

(** Every node that [j2x] builds for a key carries that key as its name. *)
Lemma j2x_names (v : JsVal) (key : string) :
  Forall (fun n => nodeName n = key) (j2x key v).
Proof.
  revert v key. fix names 1.
  intros v key. destruct v; cbn [j2x]; try (repeat constructor).
  induction items as [|x items IH]; [constructor|].
  apply Forall_app. split; [apply names|exact IH].
Qed.

Lemma lookup_addProperty_other (k k' : string) (v : JsVal)
    (obj : list (string * JsVal)) :
  (k' =? k)%string = false -> lookup k (addProperty k' v obj) = lookup k obj.
Proof.
  intros Hk. unfold lookup. induction obj as [|[k0 v0] obj IH]; cbn.
  - now rewrite Hk.
  - destruct (String.eqb_spec k0 k') as [->|Hne]; cbn.
    + now rewrite Hk.
    + destruct (k0 =? k)%string; [reflexivity|exact IH].
Qed.

Lemma lookup_fold_other (k : string) (nodes : list Node)
    (obj : list (string * JsVal)) :
  Forall (fun n => (nodeName n =? k)%string = false) nodes ->
  lookup k (fold_left (fun obj c => addProperty (nodeName c) (compress c) obj)
                      nodes obj) =
  lookup k obj.
Proof.
  intros H. revert obj.
  induction H as [|n nodes Hn _ IH]; intros obj; cbn [fold_left].
  - reflexivity.
  - rewrite IH. now apply lookup_addProperty_other.
Qed.

Lemma tags_names (k : string) (fields : list (string * JsVal)) :
  forallb (fun kv => negb (fst kv =? k)%string) fields = true ->
  Forall (fun n => (nodeName n =? k)%string = false)
    (flat_map (fun kv =>
        if isAttribute (fst kv) || (fst kv =? textNodeName)%string
        then [] else j2x (fst kv) (snd kv)) fields).
Proof.
  induction fields as [|[k0 v0] fields IH]; cbn [forallb flat_map fst snd];
    [constructor|].
  intros H. apply andb_true_iff in H. destruct H as [H1 H2].
  apply Forall_app. split; [|now apply IH].
  destruct (isAttribute k0 || (k0 =? textNodeName)%string); [constructor|].
  apply negb_true_iff in H1.
  eapply Forall_impl; [|apply j2x_names]. cbn. now intros n ->.
Qed.

Lemma attrsOf_none (fields : list (string * JsVal)) :
  forallb (fun kv => negb (isAttribute (fst kv))) fields = true ->
  attrsOf fields = [].
Proof.
  induction fields as [|[k0 v0] fields IH]; cbn [forallb]; [reflexivity|].
  intros H. apply andb_true_iff in H. destruct H as [H1 H2].
  apply negb_true_iff in H1. cbn [fst] in H1. unfold attrsOf in *.
  cbn [flat_map fst snd]. rewrite (IH H2).
  destruct v0; rewrite ?H1; reflexivity.
Qed.

Context {L : PlatformLaws P}.

Lemma compress_msgtype (code : Z) (typeName : string) :
  (typeName =? "true")%string = false ->
  compress (Element "msgtype" [buildAttrPair "$type" (VStr typeName)]
              (Number_toString code) []) =
  VObj [("#text", VNum code); ("$type", VStr (parseAttrValue typeName))]%string.
Proof.
  intros Ht. unfold buildAttrPair. cbn [ToString]. rewrite Ht.
  cbn. now rewrite parseTextData_number.
Qed.

Lemma typeNum_of_kmessage (text : string) (code : Z) (typeName : string)
    (rest : list Node) :
  (typeName =? "true")%string = false ->
  Forall (fun n => (nodeName n =? "msgtype")%string = false) rest ->
  (msgtype <- get (compress
                     (Element "kmessage" [] text
                        (Element "msgtype" [buildAttrPair "$type" (VStr typeName)]
                           (Number_toString code) [] :: rest))) "msgtype" ;;
   get msgtype "#text") = inr (VNum code).
Proof.
  intros Ht Hrest.
  set (e := Element "msgtype" _ _ _).
  assert (Hl : lookup "msgtype"
                 (fold_left (fun obj c => addProperty (nodeName c) (compress c) obj)
                            (e :: rest) []) = compress e).
  { cbn [fold_left]. rewrite lookup_fold_other by assumption. reflexivity. }
  destruct (fold_left (fun obj c => addProperty (nodeName c) (compress c) obj)
                      (e :: rest) []) as [|f fs] eqn:E.
  - subst e. rewrite compress_msgtype in Hl by assumption. discriminate.
  - rewrite (compress_children "kmessage" text (e :: rest) f fs E).
    cbn [get bindE]. unfold textField.
    assert (Hl' : lookup "msgtype"
                    (match parseTextData text with
                     | Some v => [(textNodeName, v)]
                     | None => []
                     end ++ f :: fs) = compress e)
      by (destruct (parseTextData text); exact Hl).
    rewrite Hl'. subst e. rewrite compress_msgtype by assumption. reflexivity.
Qed.

Lemma typeNumOf_build (code : Z) (typeName : string)
    (fields : list (string * JsVal)) :
  (typeName =? "true")%string = false ->
  forallb (fun kv => negb (fst kv =? "msgtype")%string) fields = true ->
  forallb (fun kv => negb (isAttribute (fst kv))) fields = true ->
  typeNumOf (builder_build
               (VObj [("kmessage"%string, VObj (msgtype code typeName :: fields))])) =
  inr (VNum code).
Proof.
  intros Ht Hm Ha. unfold msgtype.
  unfold builder_build. cbn [flat_map fst snd]. rewrite j2x_object, app_nil_r.
  rewrite attrsOf_none by (cbn [forallb]; now rewrite Ha).
  unfold typeNumOf, kmessageOf. rewrite parse_root.
  cbn [nodeName get lookup find fst snd String.eqb Ascii.eqb Bool.eqb bindE].
  cbn [flat_map fst snd].
  set (rest := flat_map _ fields).
  assert (Hrest : Forall (fun n => (nodeName n =? "msgtype")%string = false) rest)
    by (now apply tags_names).
  set (text := textOf _).
  change (isAttribute "msgtype" || ("msgtype" =? textNodeName)%string) with false.
  cbv match. rewrite j2x_object.
  cbn [attrsOf textOf flat_map fst snd app msgtype].
  change (isAttribute "#text") with false. change (isAttribute "$type") with true.
  cbv match.
  change ("#text" =? textNodeName)%string with true.
  change ("$type" =? textNodeName)%string with false.
  cbn [app orb ToString String.concat].
  now apply typeNum_of_kmessage.
Qed.

(** Whatever the fields hold, the document of a message carries the type
    code of its class where [fromXML] reads it. *)
Lemma toXML_wire_code (m : Message) (xmlStr : Document) :
  toXML m = inr xmlStr -> typeNumOf xmlStr = inr (VNum (wireCode m)).
Proof.
  unfold toXML. intros H.
  destruct (toObject m) as [e|o] eqn:E; [discriminate|].
  cbn [bindE] in H. injection H as <-.
  destruct m as [pv cn cv cd|vm rs|nk| |mx my|nx ny fs sc| | |tx nn|a0 m0 l0 w0 h0 defs];
    cbn [toObject] in E.
  all: try (injection E as <-; now apply typeNumOf_build).
  - destruct fs; [| |destruct sc as [[start stop]|]; [|discriminate]];
      injection E as <-; now apply typeNumOf_build.
  - match type of E with
    | context [mapE ?f ?l] => destruct (mapE f l) as [e|ships]
    end; [discriminate|].
    cbn [bindE] in E. injection E as <-. now apply typeNumOf_build.
Qed.

(** X4.  Whatever values the fields of a message hold, the document that
    [toXML] writes carries the type code of the message's class, and for
    every class but GameOptions [fromXML] decodes that document to a
    message of the same class: it never fails on it. *)
Theorem toXML_fromXML_class (m : Message) (xmlStr : Document) :
  toXML m = inr xmlStr ->
  typeNumOf xmlStr = inr (VNum (wireCode m)) /\
  (wireCode m <> 9 ->
   exists m', fromXML xmlStr = inr m' /\ wireCode m' = wireCode m).
Proof.
  intros H. pose proof (toXML_wire_code m xmlStr H) as Hc. split; [exact Hc|].
  intros H9.
  assert (Hn : 0 <= wireCode m <= 8) by (destruct m; cbn in *; lia).
  revert Hc Hn. generalize (wireCode m). intros n Hc Hn.
  unfold typeNumOf, kmessageOf, fromXML in *.
  destruct (get (parser_parse xmlStr) "kmessage") as [e|kmessage]; [discriminate|].
  cbn [bindE] in *.
  destruct (get_inr_object _ _ _ _ Hc) as [fields ->].
  cbn [truthy negb].
  destruct (get (VObj fields) "msgtype") as [e|msgtype]; [discriminate|].
  cbn [bindE] in *. rewrite Hc. cbn [bindE get].
  destruct n as [|p|p]; [| |lia].
  - eexists; split; reflexivity.
  - do 4 (try destruct p as [p|p|]; try lia); eexists; split; reflexivity.
Qed.

End CodecEdges.

(** ** The client: what every step keeps *)

Section Steps.
Context {P : Platform}.
Variable R : NavalClient -> NavalClient -> Prop.
Hypothesis R_refl : forall c, R c c.
Hypothesis R_trans : forall c1 c2 c3, R c1 c2 -> R c2 c3 -> R c1 c3.

Lemma steps_ret {A} (a : A) : steps R (ret a).
Proof. intros c. apply R_refl. Qed.
Lemma steps_throw {A} (e : JsError) : steps R (@throw A e).
Proof. intros c. apply R_refl. Qed.
Lemma steps_this : steps R this.
Proof. intros c. apply R_refl. Qed.
Lemma steps_effect (e : Effect) : steps R (effect e).
Proof. intros c. apply R_refl. Qed.
Lemma steps_lift {A} (r : JsError + A) : steps R (lift r).
Proof. intros c. destruct r; apply R_refl. Qed.
Lemma steps_assign (f : NavalClient -> NavalClient) :
  (forall c, R c (f c)) -> steps R (assign f).
Proof. intros H c. apply H. Qed.
Lemma steps_bind {A B} (m : M A) (f : A -> M B) :
  steps R m -> (forall a, steps R (f a)) -> steps R (bind m f).
Proof.
  intros Hm Hf c. unfold bind.
  destruct (m c) as [[[e|a] c1] out] eqn:E.
  - specialize (Hm c). now rewrite E in Hm.
  - specialize (Hf a c1). specialize (Hm c). rewrite E in Hm.
    destruct (f a c1) as [[r c2] out']. cbn in *. eapply R_trans; eassumption.
Qed.
Lemma steps_socket_write (data : JsError + Document) : steps R (socket_write data).
Proof.
  intros c. unfold socket_write. unfold_m.
  destruct (socket c); [|apply R_refl]. destruct data; apply R_refl.
Qed.

Hypothesis R_firedAt : forall c l, R c (set_firedAt l c).
Hypothesis R_rawListeners : forall c l, R c (set_rawListeners l c).
Hypothesis R_gameOptions : forall c o, R c (set_gameOptions o c).

Lemma steps_waitForNotification position xmlStr : steps R (waitForNotification position xmlStr).
Proof.
  unfold waitForNotification.
  apply steps_bind; [apply steps_lift|intros m].
  destruct m; try apply steps_ret.
  destruct (_ && _); [|apply steps_ret].
  apply steps_bind; [apply steps_this|intros c1].
  apply steps_bind; [apply steps_assign; intros; apply R_firedAt|intros _].
  apply steps_bind; [apply steps_this|intros c2].
  apply steps_bind; [apply steps_assign; intros; apply R_rawListeners|intros _].
  apply steps_effect.
Qed.

Lemma steps_runListeners xmlStr listeners : steps R (runListeners xmlStr listeners).
Proof.
  induction listeners as [|p rest IH]; cbn [runListeners].
  - apply steps_ret.
  - apply steps_bind; [apply steps_waitForNotification|now intros _].
Qed.

Lemma steps_emit_raw xmlStr : steps R (emit_raw xmlStr).
Proof.
  unfold emit_raw, emit.
  apply steps_bind; [apply steps_effect|intros _].
  apply steps_bind; [apply steps_this|intros c]. apply steps_runListeners.
Qed.

End Steps.

Ltac steps_tac Hrefl Htrans side :=
  repeat first
    [ apply (steps_ret _ Hrefl)
    | apply (steps_throw _ Hrefl)
    | apply (steps_this _ Hrefl)
    | apply (steps_effect _ Hrefl)
    | apply (steps_lift _ Hrefl)
    | apply (steps_socket_write _ Hrefl)
    | apply steps_assign; intros ?; side
    | apply (steps_bind _ Htrans); [|intros ?]
    | match goal with
      | |- steps _ (match ?x with _ => _ end) => destruct x
      end ].

Section SessionInvariants.
Context {P : Platform}.

Lemma gameStateStep_refl (c : NavalClient) : gameStateStep c c.
Proof. now left. Qed.

Lemma gameStateStep_trans (c1 c2 c3 : NavalClient) :
  gameStateStep c1 c2 -> gameStateStep c2 c3 -> gameStateStep c1 c3.
Proof.
  unfold gameStateStep. intros [H1|H1] [H2|H2]; try (now right).
  - left. congruence.
  - right. now rewrite H2.
Qed.

Ltac gameState_side :=
  first [ left; reflexivity | right; unfold playing; cbn; tauto ].

Lemma handleMessage_gameStateStep (xmlStr : Document) :
  steps gameStateStep (handleMessage xmlStr).
Proof.
  unfold handleMessage, emit.
  steps_tac gameStateStep_refl gameStateStep_trans gameState_side.
Qed.

Lemma onData_gameStateStep (str : Document) : steps gameStateStep (onData str).
Proof.
  unfold onData.
  apply (steps_bind _ gameStateStep_trans); [|intros _; apply handleMessage_gameStateStep].
  apply (steps_emit_raw _ gameStateStep_refl gameStateStep_trans); intros; now left.
Qed.

Lemma perform_gameStateStep (a : Action) (c : NavalClient) :
  a <> Close -> gameStateStep c (client (perform a c)).
Proof.
  intros Ha.
  destruct a; cbn [perform]; try contradiction.
  - revert c. change (steps gameStateStep (sendChatMessage text)).
    unfold sendChatMessage.
    steps_tac gameStateStep_refl gameStateStep_trans gameState_side.
  - rewrite sendGameOver_unchanged. now left.
  - revert c. change (steps gameStateStep requestRestart). unfold requestRestart.
    steps_tac gameStateStep_refl gameStateStep_trans gameState_side.
  - revert c. change (steps gameStateStep (sendMoveResponse notification)).
    unfold sendMoveResponse, emit.
    steps_tac gameStateStep_refl gameStateStep_trans gameState_side.
  - left. apply sendFireAt_gameState.
  - revert c. change (steps gameStateStep (connect port host)). unfold connect.
    steps_tac gameStateStep_refl gameStateStep_trans gameState_side.
  - revert c. change (steps gameStateStep disconnect). unfold disconnect.
    steps_tac gameStateStep_refl gameStateStep_trans gameState_side.
  - apply onData_gameStateStep.
Qed.

Lemma onClose_gameState (c : NavalClient) :
  _gameState (client (onClose c)) = _gameState c \/
  _gameState (client (onClose c)) = DISCONNECTED.
Proof.
  unfold onClose. unfold_m. destruct (socket c) as [s|]; cbn; [|now left].
  destruct (closeListeners s); cbn; [now left|now right].
Qed.

Lemma Action_Close_dec (a : Action) : a = Close \/ a <> Close.
Proof. destruct a; (now left) || (right; discriminate). Qed.

(** X14.  No sequence of method calls and socket events takes a client to
    the game state AWAIT_RESPONSE_OTHER: the enum lists it, no code
    assigns it. *)
Theorem never_await_response_other (c : NavalClient) :
  reachable c -> _gameState c <> AWAIT_RESPONSE_OTHER.
Proof.
  intros (nick & actions & Hrun).
  assert (H0 : _gameState (new_NavalClient nick) <> AWAIT_RESPONSE_OTHER) by discriminate.
  revert Hrun H0. generalize (new_NavalClient nick). 
  induction actions as [|a rest IH]; intros c0; cbn [run].
  - now intros [= <-].
  - destruct (enabled a c0); [|discriminate]. intros Hrun H0. apply (IH _ Hrun).
    destruct (Action_Close_dec a) as [->|Ha].
    + cbn [perform]. destruct (onClose_gameState c0) as [E|E]; rewrite E; [assumption|discriminate].
    + destruct (perform_gameStateStep a c0 Ha) as [E|E]; [now rewrite E|].
      unfold playing in E. intros E'. rewrite E' in E. 
      now repeat (destruct E as [E|E]; [discriminate|]).
Qed.

(** X15.  A connected client stays connected until the socket closes: no
    method call and no received data takes a client whose game state is
    not DISCONNECTED to DISCONNECTED. *)
Theorem leaves_disconnected_only_on_close (a : Action) (c : NavalClient) :
  a <> Close -> _gameState c <> DISCONNECTED ->
  _gameState (client (perform a c)) <> DISCONNECTED.
Proof.
  intros Ha Hc.
  destruct (perform_gameStateStep a c Ha) as [E|E]; [now rewrite E|].
  unfold playing in E. intros E'. rewrite E' in E.
  now repeat (destruct E as [E|E]; [discriminate|]).
Qed.

End SessionInvariants.

Section OpponentInvariants.
Context {P : Platform}.

Lemma opponentStep_refl (c : NavalClient) : opponentStep c c.
Proof. now left. Qed.

Lemma opponentStep_trans (c1 c2 c3 : NavalClient) :
  opponentStep c1 c2 -> opponentStep c2 c3 -> opponentStep c1 c3.
Proof.
  unfold opponentStep. intros [H1|H1] [H2|H2]; try (now right).
  - left. congruence.
  - right. now rewrite H2.
Qed.

Ltac opponent_side :=
  first [ left; reflexivity | right; eexists; reflexivity ].

Lemma perform_opponentStep (a : Action) (c : NavalClient) :
  opponentStep c (client (perform a c)).
Proof.
  destruct a; cbn [perform]; revert c.
  - change (steps opponentStep (sendChatMessage text)). unfold sendChatMessage.
    steps_tac opponentStep_refl opponentStep_trans opponent_side.
  - change (steps opponentStep sendGameOver). unfold sendGameOver, emit.
    steps_tac opponentStep_refl opponentStep_trans opponent_side.
  - change (steps opponentStep requestRestart). unfold requestRestart.
    steps_tac opponentStep_refl opponentStep_trans opponent_side.
  - change (steps opponentStep (sendMoveResponse notification)).
    unfold sendMoveResponse, emit.
    steps_tac opponentStep_refl opponentStep_trans opponent_side.
  - change (steps opponentStep (sendFireAt position)). unfold sendFireAt.
    steps_tac opponentStep_refl opponentStep_trans opponent_side.
  - change (steps opponentStep (connect port host)). unfold connect.
    steps_tac opponentStep_refl opponentStep_trans opponent_side.
  - change (steps opponentStep disconnect). unfold disconnect.
    steps_tac opponentStep_refl opponentStep_trans opponent_side.
  - change (steps opponentStep (onData str)). unfold onData.
    apply (steps_bind _ opponentStep_trans); [|intros _].
    + apply (steps_emit_raw _ opponentStep_refl opponentStep_trans); intros; now left.
    + unfold handleMessage, emit.
      steps_tac opponentStep_refl opponentStep_trans opponent_side.
  - change (steps opponentStep onClose). unfold onClose.
    steps_tac opponentStep_refl opponentStep_trans opponent_side.
Qed.

Lemma run_opponentStep (actions : list Action) (c c' : NavalClient) :
  run actions c = Some c' -> opponentStep c c'.
Proof.
  revert c. induction actions as [|a rest IH]; intros c; cbn [run].
  - intros [= <-]. apply opponentStep_refl.
  - destruct (enabled a c); [|discriminate]. intros Hrun.
    eapply opponentStep_trans; [apply (perform_opponentStep a c)|apply IH; exact Hrun].
Qed.

(** X16.  Along every run the opponent, when there is one, is a player
    whose [me] is false, and an opponent, once set, is never cleared. *)
Theorem opponent_is_not_me (actions : list Action) (c c' : NavalClient) :
  run actions c = Some c' ->
  (forall p, opponent c = Some p -> Player.me p = false) ->
  (forall p, opponent c' = Some p -> Player.me p = false) /\
  (opponent c <> None -> opponent c' <> None).
Proof.
  intros Hrun Hc. destruct (run_opponentStep actions c c' Hrun) as [E|[n E]]; rewrite E.
  - split; [assumption|trivial].
  - split; [now intros p [= <-]|intros _; discriminate].
Qed.

(** Until [connect] is called, nothing changes the client. *)
Lemma perform_unconnected (a : Action) (c : NavalClient) (nick : string) :
  enabled a c = true -> c = new_NavalClient nick ->
  client (perform a c) = c \/ socket (client (perform a c)) <> None.
Proof.
  intros He ->. destruct a; cbn in He; try discriminate; cbn [perform].
  - left. reflexivity.
  - left. apply sendGameOver_unchanged.
  - left. reflexivity.
  - left. reflexivity.
  - left. reflexivity.
  - right. cbn. discriminate.
  - left. reflexivity.
Qed.

(** X17.  A reachable client without a socket is the client its
    constructor built: until [connect] is called, no method changes the
    game state, the options, the shots or the opponent. *)
Theorem unconnected_client (c : NavalClient) :
  reachable c -> socket c = None -> c = new_NavalClient (nickname c).
Proof.
  intros (nick & actions & Hrun) Hs.
  assert (H : forall c0, c0 = new_NavalClient nick \/ socket c0 <> None ->
                run actions c0 = Some c ->
                c = new_NavalClient nick \/ socket c <> None).
  { clear Hrun. induction actions as [|a rest IH]; intros c0 H0; cbn [run].
    - now intros [= <-].
    - destruct (enabled a c0) eqn:He; [|discriminate]. apply IH.
      destruct H0 as [H0|H0].
      + destruct (perform_unconnected a c0 nick He H0) as [E|E]; [|now right].
        left. now rewrite E.
      + right. now apply perform_socket. }
  destruct (H _ (or_introl eq_refl) Hrun) as [E|E]; [|contradiction].
  subst c. reflexivity.
Qed.

End OpponentInvariants.


Section Calls.
Context {P : Platform}.

(** X6.  A public method that throws has done nothing: the client is as it
    was before the call, nothing was written to the socket and no event
    was emitted. *)
Theorem call_error_atomic (a : Action) (c : NavalClient) (e : JsError) :
  isCall a = true -> result (perform a c) = inl e ->
  client (perform a c) = c /\ effects (perform a c) = [].
Proof.
  intros Ha. destruct a; cbn in Ha; try discriminate; cbn [perform].
  - unfold sendChatMessage. unfold_m. destruct (socket c); cbn; discriminate.
  - unfold sendGameOver. unfold_m.
    destruct (GameState_eqb (_gameState c) FIRE_SHIPS_SELF); cbn; [now split|].
    destruct (socket c); cbn; discriminate.
  - unfold requestRestart. unfold_m. destruct (socket c); cbn; discriminate.
  - unfold sendMoveResponse. unfold_m.
    destruct (GameState_eqb (_gameState c) AWAIT_RESPONSE_SELF); cbn; [|now split].
    destruct (socket c); cbn; [|discriminate].
    destruct (toXML notification); cbn; [now split|discriminate].
  - unfold sendFireAt. unfold_m.
    destruct (GameState_eqb (_gameState c) FIRE_SHIPS_SELF); cbn; [|now split].
    case_find Hf; cbn; [now split|].
    destruct (socket c); cbn; discriminate.
  - unfold connect. unfold_m.
    destruct (GameState_eqb (_gameState c) DISCONNECTED); cbn; [discriminate|now split].
  - unfold disconnect. unfold_m.
    destruct (GameState_eqb (_gameState c) DISCONNECTED); cbn; [now split|].
    destruct (socket c); cbn; discriminate.
Qed.


Lemma runListeners_decoded (xmlStr : Document) (m : Message)
    (listeners : list Position) (c : NavalClient) :
  fromXML xmlStr = inr m -> result (runListeners xmlStr listeners c) = inr tt.
Proof.
  intros Hm. revert c. induction listeners as [|p rest IH]; intros c; [reflexivity|].
  cbn [runListeners]. unfold bind at 1.
  assert (Hw : exists c1 out, waitForNotification p xmlStr c = (inr tt, c1, out)).
  { unfold waitForNotification. unfold_m. rewrite Hm.
    destruct m; try (now do 2 eexists).
    destruct (_ && _); now do 2 eexists. }
  destruct Hw as (c1 & out & ->).
  specialize (IH c1). destruct (runListeners xmlStr rest c1) as [[r c2] out'].
  exact IH.
Qed.

Lemma runListeners_undecoded (xmlStr : Document) (e : JsError)
    (listeners : list Position) (c : NavalClient) :
  fromXML xmlStr = inl e ->
  runListeners xmlStr listeners c =
    (match listeners with [] => inr tt | _ => inl e end, c, []).
Proof.
  intros He. destruct listeners as [|p rest]; [reflexivity|].
  cbn [runListeners]. unfold bind at 1. unfold waitForNotification. unfold_m.
  now rewrite He.
Qed.

Lemma handleMessage_decoded (xmlStr : Document) (m : Message) (c : NavalClient) :
  fromXML xmlStr = inr m -> result (handleMessage xmlStr c) = inr tt.
Proof.
  intros Hm. unfold handleMessage. unfold_m. rewrite Hm.
  destruct m as [pv cn cv cd|vm rs|nk| |mx my|nx ny fs sc| | |tx nn|a0 m0 l0 w0 h0 defs];
    try reflexivity; try (cbn; destruct (socket c); reflexivity).
  destruct (encodes_defined a0 m0 l0 w0 h0 defs
              (fromXML_GameOptions_inv _ _ _ _ _ _ _ Hm)) as [echo Hecho].
  cbn. destruct (socket c); [|reflexivity]. now rewrite Hecho.
Qed.

(** X7.  The data handler returns normally on every document that
    [fromXML] decodes: no listener and no branch of [#handleMessage]
    throws.  On a document that [fromXML] rejects it throws that error
    after emitting 'raw', and the client is unchanged. *)
Theorem onData_result (str : Document) (c : NavalClient) :
  (forall m, fromXML str = inr m -> result (onData str c) = inr tt) /\
  (forall e, fromXML str = inl e ->
     onData str c = (inl e, c, [Emit (EvRaw str)])).
Proof.
  split.
  - intros m Hm. unfold onData, emit_raw. unfold_m.
    pose proof (runListeners_decoded str m (rawListeners c) c Hm) as Hl.
    destruct (runListeners str (rawListeners c) c) as [[r c1] out].
    cbn in Hl. subst r.
    pose proof (handleMessage_decoded str m c1 Hm) as Hh.
    destruct (handleMessage str c1) as [[r c2] out']. exact Hh.
  - intros e He. unfold onData, emit_raw. unfold_m.
    rewrite (runListeners_undecoded str e _ c He).
    destruct (rawListeners c); [|reflexivity].
    unfold handleMessage. unfold_m. now rewrite He.
Qed.

(** X8.  On a Header the client answers with its own header (protocol
    0.1.0, KBattleship, version 4) and nothing else happens: the client is
    unchanged and what the peer's header says is ignored. *)
Theorem header_received (c : NavalClient) (xmlStr : Document)
    (protocolVersion clientName clientVersion clientDescription : JsVal) :
  fromXML xmlStr =
    inr (HeaderMessage protocolVersion clientName clientVersion clientDescription) ->
  socket c <> None ->
  exists myHeader,
    toXML (HeaderMessage (VStr "0.1.0") (VStr "KBattleship") (VNum 4)
             (VStr "The Naval Battle game")) = inr myHeader /\
    onData xmlStr c =
      (inr tt, c, [Emit (EvRaw xmlStr); SocketWrite myHeader]).
Proof.
  intros Hm Hs. eexists. split; [reflexivity|].
  unfold onData. unfold bind at 1.
  rewrite (emit_raw_other xmlStr _ c Hm) by discriminate.
  unfold handleMessage. unfold_m. rewrite Hm.
  destruct (socket c); [reflexivity|contradiction].
Qed.

(** X9.  On a GameOptions message the client takes over the six options
    of the message and echoes the message to the peer. *)
Theorem gameOptions_received (c : NavalClient) (xmlStr : Document)
    (a m l w h : JsVal) (defs : list ShipDefinition) :
  fromXML xmlStr = inr (GameOptionsMessage a m l w h defs) ->
  socket c <> None ->
  exists echo,
    toXML (GameOptionsMessage a m l w h defs) = inr echo /\
    onData xmlStr c =
      (inr tt,
       set_gameOptions
         {| adjacentShips := a; allowMultipleOfSame := m; longestShip := l;
            boardWidth := w; boardHeight := h; shipDefinitions := defs |} c,
       [Emit (EvRaw xmlStr); SocketWrite echo]).
Proof.
  intros Hm Hs.
  destruct (encodes_defined a m l w h defs (fromXML_GameOptions_inv _ _ _ _ _ _ _ Hm))
    as [echo Hecho].
  exists echo. split; [assumption|].
  unfold onData. unfold bind at 1.
  rewrite (emit_raw_other xmlStr _ c Hm) by discriminate.
  unfold handleMessage. unfold_m. rewrite Hm. cbn.
  destruct (socket c); [|contradiction]. now rewrite Hecho.
Qed.

(** X10.  On a Move the game state becomes AWAIT_RESPONSE_SELF, whatever
    it was, and 'move' is emitted with the coordinates; nothing is written
    to the socket. *)
Theorem move_received (c : NavalClient) (xmlStr : Document) (x y : JsVal) :
  fromXML xmlStr = inr (MoveMessage x y) ->
  onData xmlStr c =
    (inr tt, set_gameState AWAIT_RESPONSE_SELF c,
     [Emit (EvRaw xmlStr); Emit (EvMove (MoveMessage x y))]).
Proof.
  intros Hm. unfold onData. unfold bind at 1.
  rewrite (emit_raw_other xmlStr _ c Hm) by discriminate.
  unfold handleMessage. unfold_m. now rewrite Hm.
Qed.

(** X11.  On a GameOver the game state becomes GAME_OVER and 'gameOver' is
    emitted with this client as the winner ([me] true, its own nickname);
    nothing is written to the socket. *)
Theorem gameOver_received (c : NavalClient) (xmlStr : Document) :
  fromXML xmlStr = inr GameOverMessage ->
  onData xmlStr c =
    (inr tt, set_gameState GAME_OVER c,
     [Emit (EvRaw xmlStr);
      Emit (EvGameOver (Some {| Player.me := true;
                                Player.nickname := VStr (nickname c) |}))]).
Proof.
  intros Hm. unfold onData. unfold bind at 1.
  rewrite (emit_raw_other xmlStr _ c Hm) by discriminate.
  unfold handleMessage. unfold_m. now rewrite Hm.
Qed.

(** X12.  A Chat, Reject or Restart message changes nothing in the client:
    after 'raw', a Chat is passed on as a 'chat' event, and a Reject or a
    Restart is dropped without any event or answer. *)
Theorem passive_received (c : NavalClient) (xmlStr : Document) (m : Message) :
  fromXML xmlStr = inr m ->
  type m = Chat \/ type m = Reject \/ type m = Restart ->
  onData xmlStr c =
    (inr tt, c,
     Emit (EvRaw xmlStr) ::
     match m with
     | ChatMessage _ _ => [Emit (EvChat m)]
     | _ => []
     end).
Proof.
  intros Hm Ht. unfold onData. unfold bind at 1.
  destruct m; cbn in Ht; try (now destruct Ht as [Ht|[Ht|Ht]]);
    (rewrite (emit_raw_other xmlStr _ c Hm) by discriminate);
    unfold handleMessage; unfold_m; now rewrite Hm.
Qed.

(** X18.  Once the notification for a pending shot has arrived, its
    position is in [firedAt], and firing at that position again is
    refused without any change, whatever the game state is. *)
Theorem no_refire_after_resolution (c : NavalClient) (position : Position)
    (xmlStr : Document) (fieldState : FieldState) (sinkCoordinates : option Coordinates) :
  In position (rawListeners c) ->
  fromXML xmlStr =
    inr (NotificationMessage (VNum (fst position)) (VNum (snd position))
           fieldState sinkCoordinates) ->
  let c' := client (onData xmlStr c) in
  In position (firedAt c') /\
  exists message, sendFireAt position c' = (inl (Error message), c', []).
Proof.
  intros Hin Hm c'.
  assert (Hf : In position (firedAt c')).
  { subst c'. rewrite (onData_notification xmlStr _ _ _ _ c Hm). cbn.
    apply in_or_app. right. apply filter_In. split; [assumption|].
    apply Position_eqb_eq. now destruct position. }
  split; [assumption|].
  unfold sendFireAt. unfold_m.
  destruct (GameState_eqb (_gameState c') FIRE_SHIPS_SELF); cbn; [|now eexists].
  case_find Hfind; [now eexists|].
  apply (find_none _ _ Hfind) in Hf. cbn in Hf. now rewrite !Z.eqb_refl in Hf.
Qed.

(** X19.  What [MoveMessage.respond] builds is accepted by
    [sendMoveResponse] of a connected client in AWAIT_RESPONSE_SELF, except
    "sink" without ship coordinates: then [toXML] throws a TypeError and
    the client stays in AWAIT_RESPONSE_SELF, nothing written. *)
Theorem respond_sendable (c : NavalClient) (x y : JsVal) (message : Outcome)
    (shipCoordinates : option Coordinates) :
  _gameState c = AWAIT_RESPONSE_SELF -> socket c <> None ->
  let notification := respond x y message shipCoordinates in
  (message = sink /\ shipCoordinates = None ->
   sendMoveResponse notification c = (inl TypeError, c, [])) /\
  (message <> sink \/ shipCoordinates <> None ->
   exists xmlStr,
     toXML notification = inr xmlStr /\
     sendMoveResponse notification c =
       (inr tt, set_gameState FIRE_SHIPS_SELF c,
        [SocketWrite xmlStr; Emit EvCanFire])).
Proof.
  intros Hg Hs notification. subst notification.
  unfold sendMoveResponse. unfold_m. rewrite Hg. cbn [GameState_eqb negb].
  destruct (socket c) as [s|]; [|contradiction]. split.
  - intros [-> ->]. reflexivity.
  - intros Hok.
    destruct message; try (eexists; split; reflexivity).
    destruct shipCoordinates as [[start stop]|]; [eexists; split; reflexivity|].
    now destruct Hok.
Qed.

(** X20.  A Begin (a restart) empties [firedAt] but leaves the listeners
    of pending shots registered: a notification that arrives afterwards
    for such a shot still puts its position into the new game's
    [firedAt], in the game state FIRE_SHIPS_OTHER. *)
Theorem begin_keeps_pending_shots (c : NavalClient) (begin notification : Document)
    (a b : Z) (fieldState : FieldState) (sinkCoordinates : option Coordinates) :
  fromXML begin = inr BeginMessage ->
  fromXML notification =
    inr (NotificationMessage (VNum a) (VNum b) fieldState sinkCoordinates) ->
  let r1 := onData begin c in
  let r2 := onData notification (client r1) in
  rawListeners (client r1) = rawListeners c /\
  firedAt (client r1) = [] /\
  firedAt (client r2) = filter (Position_eqb (a, b)) (rawListeners c) /\
  _gameState (client r2) = FIRE_SHIPS_OTHER.
Proof.
  intros Hb Hn r1 r2.
  assert (E1 : client r1 = set_gameState FIRE_SHIPS_OTHER (set_firedAt [] c)).
  { subst r1. unfold onData. unfold bind at 1.
    rewrite (emit_raw_other begin _ c Hb) by discriminate.
    unfold handleMessage. unfold_m. rewrite Hb.
    destruct (socket c); reflexivity. }
  subst r2. rewrite (onData_notification notification _ _ _ _ (client r1) Hn).
  rewrite E1. cbn. repeat split.
Qed.

End Calls.

Section Exchanges.
Context {P : Platform} {L : PlatformLaws P}.

Lemma decode_Move (x y : Z) (xmlStr : Document) :
  toXML (MoveMessage (VNum x) (VNum y)) = inr xmlStr ->
  fromXML xmlStr = inr (MoveMessage (VNum x) (VNum y)).
Proof.
  intros [= <-].
  change (roundTrip (MoveMessage (VNum x) (VNum y)) = inr (MoveMessage (VNum x) (VNum y))).
  decode_doc; reflexivity.
Qed.

Lemma decode_answer (x y : Z) (message : Outcome) (xmlStr : Document) :
  message <> sink ->
  toXML (respond (VNum x) (VNum y) message None) = inr xmlStr ->
  fromXML xmlStr =
    inr (NotificationMessage (VNum x) (VNum y)
           (match message with miss => Miss | _ => Hit end) None).
Proof.
  intros Hm.
  destruct message; try contradiction; intros [= <-].
  - change (roundTrip (NotificationMessage (VNum x) (VNum y) Hit None) =
            inr (NotificationMessage (VNum x) (VNum y) Hit None)).
    decode_doc; reflexivity.
  - change (roundTrip (NotificationMessage (VNum x) (VNum y) Miss None) =
            inr (NotificationMessage (VNum x) (VNum y) Miss None)).
    decode_doc; reflexivity.
Qed.

(** X21.  A whole shot between two clients: what [sendFireAt] of [a]
    writes is decoded by [b] as that move ('move' emitted,
    AWAIT_RESPONSE_SELF); what [b] then sends with
    [sendMoveResponse(move.respond(...))] for a hit or a miss is decoded by
    [a] as the notification of the pending shot, which resolves it exactly
    once and records the position. *)
Theorem fire_exchange (a b : NavalClient) (position : Position) (message : Outcome) :
  _gameState a = FIRE_SHIPS_SELF -> socket a <> None ->
  ~ In position (firedAt a) -> occurrences position (rawListeners a) = 0%nat ->
  socket b <> None -> message <> sink ->
  let x := VNum (fst position) in
  let y := VNum (snd position) in
  let answer := NotificationMessage x y (match message with miss => Miss | _ => Hit end) None in
  exists move notification,
    let a1 := set_rawListeners (rawListeners a ++ [position]) a in
    let b1 := set_gameState AWAIT_RESPONSE_SELF b in
    sendFireAt position a = (inr tt, a1, [SocketWrite move]) /\
    onData move b = (inr tt, b1, [Emit (EvRaw move); Emit (EvMove (MoveMessage x y))]) /\
    sendMoveResponse (respond x y message None) b1 =
      (inr tt, set_gameState FIRE_SHIPS_SELF b1,
       [SocketWrite notification; Emit EvCanFire]) /\
    let r := onData notification a1 in
    result r = inr tt /\
    effects r = [Emit (EvRaw notification); Res position answer] /\
    firedAt (client r) = firedAt a ++ [position] /\
    rawListeners (client r) = rawListeners a /\
    _gameState (client r) = FIRE_SHIPS_SELF.
Proof.
  intros Hga Hsa Hfa Hpa Hsb Hm x y answer.
  destruct (socket a) as [sa|] eqn:Ea; [|contradiction].
  destruct (sendFireAt_accepted a position sa Hga Hfa Ea) as (move & Hmove & Hfire).
  assert (Hn : exists notification, toXML (respond x y message None) = inr notification)
    by (destruct message; try contradiction; now eexists).
  destruct Hn as [notification Hn].
  exists move, notification. intros a1 b1.
  pose proof (decode_Move _ _ _ Hmove) as Dm.
  pose proof (decode_answer _ _ _ _ Hm Hn) as Dn.
  split; [exact Hfire|]. split; [|split].
  - unfold onData. unfold bind at 1.
    rewrite (emit_raw_other move _ b Dm) by discriminate.
    unfold handleMessage. unfold_m. now rewrite Dm.
  - unfold sendMoveResponse. unfold_m. cbn [_gameState b1 set_gameState GameState_eqb negb].
    cbn [socket b1 set_gameState].
    destruct (socket b); [|contradiction]. now rewrite Hn.
  - cbn zeta. rewrite (onData_notification notification _ _ _ _ a1 Dn).
    cbn [result client effects fst snd].
    assert (Hnone : filter (Position_eqb (fst position, snd position)) (rawListeners a) = []).
    { unfold occurrences in Hpa.
      replace (fst position, snd position) with position by now destruct position.
      now destruct (filter (Position_eqb position) (rawListeners a)). }
    assert (Hself : Position_eqb (fst position, snd position) position = true)
      by (apply Position_eqb_eq; now destruct position).
    assert (Hkeep : filter (fun p => negb (Position_eqb (fst position, snd position) p))
                      (rawListeners a) = rawListeners a).
    { clear -Hnone. induction (rawListeners a) as [|p l IH]; [reflexivity|].
      cbn in *. destruct (Position_eqb (fst position, snd position) p); [discriminate|].
      cbn. now rewrite IH. }
    cbn [rawListeners firedAt _gameState a1 set_rawListeners set_firedAt].
    rewrite !filter_app, Hnone, Hkeep. cbn [filter app]. rewrite Hself. cbn [negb map app].
    rewrite app_nil_r. repeat split; try reflexivity. assumption.
Qed.

(** X22.  What [sendChatMessage] writes reaches the peer's 'chat' event
    with the text and the sender's nickname, when both are strings the
    parser hands back unchanged; neither client changes. *)
Theorem chat_exchange (a b : NavalClient) (text : string) :
  socket a <> None -> tagValue text = VStr text ->
  tagValue (nickname a) = VStr (nickname a) ->
  exists chat,
    sendChatMessage text a = (inr tt, a, [SocketWrite chat]) /\
    onData chat b =
      (inr tt, b,
       [Emit (EvRaw chat);
        Emit (EvChat (ChatMessage (VStr text) (VStr (nickname a))))]).
Proof.
  intros Hs Ht Hn. eexists. split.
  - unfold sendChatMessage. unfold_m. destruct (socket a); [reflexivity|contradiction].
  - assert (D : roundTrip (ChatMessage (VStr text) (VStr (nickname a))) =
                inr (ChatMessage (VStr text) (VStr (nickname a))))
      by (decode_doc; reflexivity).
    unfold roundTrip in D. cbn [toXML toObject bindE] in D.
    unfold onData. unfold bind at 1.
    rewrite (emit_raw_other _ _ b D) by discriminate.
    unfold handleMessage. unfold_m. now rewrite D.
Qed.

End Exchanges.



Section Replies.
Context {P : Platform}.

Lemma runListeners_writes (xmlStr : Document) (listeners : list Position)
    (c : NavalClient) :
  filter isSocketWrite (effects (runListeners xmlStr listeners c)) = [].
Proof.
  revert c. induction listeners as [|p rest IH]; intros c; [reflexivity|].
  cbn [runListeners]. unfold bind at 1.
  assert (Hw : exists r c1 out, waitForNotification p xmlStr c = (r, c1, out) /\
                                filter isSocketWrite out = []).
  { unfold waitForNotification. unfold_m.
    destruct (fromXML xmlStr) as [e|m]; [now do 3 eexists|].
    destruct m; try (now do 3 eexists).
    destruct (_ && _); now do 3 eexists. }
  destruct Hw as (r & c1 & out & -> & Hout).
  destruct r as [e|[]]; [exact Hout|].
  specialize (IH c1). destruct (runListeners xmlStr rest c1) as [[r c2] out'].
  cbn in *. now rewrite filter_app, Hout, IH.
Qed.

Context {L : PlatformLaws P}.

(** X13.  The data handler of a connected client writes to the socket
    exactly once for a Header, Nick, Begin or GameOptions message, and
    what it writes has the type code of the message received; for every
    other message it writes nothing. *)
Theorem automatic_replies (c : NavalClient) (xmlStr : Document) (m : Message) :
  fromXML xmlStr = inr m -> socket c <> None ->
  (answered m = true ->
   exists reply,
     filter isSocketWrite (effects (onData xmlStr c)) = [SocketWrite reply] /\
     typeNumOf reply = inr (VNum (wireCode m))) /\
  (answered m = false ->
   filter isSocketWrite (effects (onData xmlStr c)) = []).
Proof.
  intros Hm Hs.
  assert (Hraw : filter isSocketWrite (effects (emit_raw xmlStr c)) = []).
  { unfold emit_raw. unfold_m.
    pose proof (runListeners_writes xmlStr (rawListeners c) c) as H.
    destruct (runListeners xmlStr (rawListeners c) c) as [[r c1] out]. exact H. }
  split; intros Ha.
  - assert (Hreply : exists reply,
              toXML (match m with
                     | HeaderMessage _ _ _ _ =>
                         HeaderMessage (VStr "0.1.0") (VStr "KBattleship") (VNum 4)
                           (VStr "The Naval Battle game")
                     | NickMessage _ => NickMessage (VStr (nickname c))
                     | _ => m
                     end) = inr reply).
    { destruct m as [pv cn cv cd|vm rs|nk| |mx my|nx ny fs sc| | |tx nn|a0 m0 l0 w0 h0 defs];
        try discriminate; try (now eexists).
      exact (encodes_defined a0 m0 l0 w0 h0 defs
               (fromXML_GameOptions_inv _ _ _ _ _ _ _ Hm)). }
    destruct Hreply as [reply Hreply]. exists reply.
    pose proof (toXML_wire_code _ _ Hreply) as Hcode.
    destruct (socket c) as [s|] eqn:Es; [|contradiction].
    destruct m as [pv cn cv cd|vm rs|nk| |mx my|nx ny fs sc| | |tx nn|a0 m0 l0 w0 h0 defs];
      try discriminate;
      (split; [|exact Hcode]);
      unfold onData; unfold bind at 1;
      (rewrite (emit_raw_other xmlStr _ c Hm) by discriminate);
      unfold handleMessage; unfold_m; rewrite Hm;
      cbn [socket set_gameState set_gameOptions]; rewrite Es, Hreply; reflexivity.
  - destruct m as [pv cn cv cd|vm rs|nk| |mx my|nx ny fs sc| | |tx nn|a0 m0 l0 w0 h0 defs];
      try discriminate.
    all: unfold onData; unfold bind at 1.
    all: destruct (emit_raw xmlStr c) as [[[e|[]] c1] out] eqn:Er; cbn in Hraw;
      [exact Hraw|].
    all: unfold handleMessage; unfold_m; rewrite Hm; cbn;
      rewrite ?app_nil_r, ?filter_app, ?Hraw; reflexivity.
Qed.

End Replies.

Section Reconnect.
Context {P : Platform}.

(** X23.  After [disconnect], the close of the socket and a new
    [connect], the client has a new socket and the old session: opponent,
    [firedAt], options and pending listeners are kept, and the game state
    is DISCONNECTED, as after the first [connect]. *)
Theorem reconnect_keeps_session (c : NavalClient) (port : Z) (host : string) :
  reachable c -> _gameState c <> DISCONNECTED ->
  let r1 := disconnect c in
  let r2 := onClose (client r1) in
  let r3 := connect port host (client r2) in
  result r3 = inr tt /\
  effects r3 = [CreateConnection host port] /\
  client r3 =
    set_socket (Some {| ended := false; closeListeners := 0 |})
      (set_gameState DISCONNECTED c).
Proof.
  intros Hreach Hg r1 r2 r3.
  destruct (socket c) as [s|] eqn:Hs;
    [|now destruct (reachable_socket c Hreach Hg)].
  subst r3 r2 r1. rewrite (disconnect_connected c s Hg Hs).
  unfold onClose, connect. unfold_m. cbn. repeat split.
Qed.

End Reconnect.

(** ** The properties at work on the decimal platform *)

Section MoreComputed.
#[local] Existing Instance Decimal.platform.

Lemma toXML_fails_witness :
  toXML (respond (VNum 2) (VNum 3) sink None) = inl TypeError.
Proof.
  apply (proj2 (toXML_fails (respond (VNum 2) (VNum 3) sink None))).
  exact I.
Defined.

Lemma fromXML_known_code_witness :
  exists m, fromXML Peer.bareNick = inr m /\ wireCode m = 2.
Proof.
  apply fromXML_known_code; [vm_compute; reflexivity|lia].
Defined.

Lemma fromXML_GameOptions_witness :
  fromXML Peer.oneShip = inl TypeError /\
  exists a m l w h defs,
    fromXML Peer.twoShips = inr (GameOptionsMessage a m l w h defs) /\
    length defs = 2%nat.
Proof.
  split.
  - apply (fromXML_GameOptions Peer.oneShip); [vm_compute; reflexivity|].
    right. left. intros items. vm_compute. discriminate.
  - destruct (fromXML_GameOptions Peer.twoShips) as [_ H];
      [vm_compute; reflexivity|].
    destruct (H (map (fun _ : unit =>
                        VObj [("$name", VStr "frigate"); ("$number", VStr "1");
                              ("$pluralName", VStr "frigates");
                              ("$size", VStr "2")]%string) [tt; tt]))
      as (a & m & l & w & h & defs & E & Hlen).
    + vm_compute. discriminate.
    + vm_compute. reflexivity.
    + cbn. intros [F|[F|[]]]; discriminate.
    + exists a, m, l, w, h, defs. split; [exact E|exact Hlen].
Defined.

Lemma toXML_fromXML_class_witness :
  exists m',
    fromXML (Scenario.xml (NickMessage (VStr "42"))) = inr m' /\ wireCode m' = 2.
Proof.
  destruct (@toXML_fromXML_class Decimal.platform Decimal_laws
              (NickMessage (VStr "42")) (Scenario.xml (NickMessage (VStr "42"))))
    as [_ H].
  - vm_compute. reflexivity.
  - apply H. cbn. discriminate.
Defined.

Lemma fromXML_reencodes_witness :
  (exists xmlStr', toXML Scenario.sunk = inr xmlStr') \/
  (exists x y, Scenario.sunk = NotificationMessage x y Sink None).
Proof.
  apply (fromXML_reencodes (Scenario.xml Scenario.sunk)).
  vm_compute. reflexivity.
Defined.

Lemma call_error_atomic_witness :
  let c := Scenario.after Scenario.fired in
  client (perform (SendFireAt (3, 4)) c) = c /\
  effects (perform (SendFireAt (3, 4)) c) = [].
Proof.
  intros c.
  apply (call_error_atomic (SendFireAt (3, 4)) c
           (Error "cannot fire at ships right now")).
  - reflexivity.
  - vm_compute. reflexivity.
Defined.

Lemma onData_result_witness :
  result (onData (Scenario.xml BeginMessage) (Scenario.after Scenario.pending)) =
    inr tt /\
  onData Scenario.unknown Peer.b =
    (inl (Error "Unknown message type: 10"), Peer.b, [Emit (EvRaw Scenario.unknown)]).
Proof.
  split.
  - apply (proj1 (onData_result (Scenario.xml BeginMessage)
                    (Scenario.after Scenario.pending)) BeginMessage).
    vm_compute. reflexivity.
  - apply (proj2 (onData_result Scenario.unknown Peer.b)).
    vm_compute. reflexivity.
Defined.

Lemma header_received_witness :
  let header := Scenario.xml (HeaderMessage (VStr "0.1.0") (VStr "app") (VNum 1)
                                (VStr "desc")) in
  exists myHeader,
    onData header Peer.b =
      (inr tt, Peer.b, [Emit (EvRaw header); SocketWrite myHeader]).
Proof.
  intros header.
  destruct (header_received Peer.b header (VStr "0.1.0") (VStr "app") (VNum 1)
              (VStr "desc")) as (myHeader & _ & H).
  - vm_compute. reflexivity.
  - vm_compute. discriminate.
  - exists myHeader. exact H.
Defined.

Lemma gameOptions_received_witness :
  exists echo,
    onData Peer.twoShips Peer.b =
      (inr tt,
       set_gameOptions
         {| adjacentShips := VBool true; allowMultipleOfSame := VBool false;
            longestShip := VNum 4; boardWidth := VNum 10; boardHeight := VNum 10;
            shipDefinitions := [Peer.frigate; Peer.frigate] |} Peer.b,
       [Emit (EvRaw Peer.twoShips); SocketWrite echo]).
Proof.
  destruct (gameOptions_received Peer.b Peer.twoShips (VBool true) (VBool false)
              (VNum 4) (VNum 10) (VNum 10) [Peer.frigate; Peer.frigate])
    as (echo & _ & H).
  - vm_compute. reflexivity.
  - vm_compute. discriminate.
  - exists echo. exact H.
Defined.

Lemma move_received_witness :
  let c := Scenario.after Scenario.begun in
  let move := Scenario.xml (MoveMessage (VNum 2) (VNum 2)) in
  onData move c =
    (inr tt, set_gameState AWAIT_RESPONSE_SELF c,
     [Emit (EvRaw move); Emit (EvMove (MoveMessage (VNum 2) (VNum 2)))]).
Proof.
  intros c move. apply move_received. vm_compute. reflexivity.
Defined.

Lemma gameOver_received_witness :
  let c := Scenario.after Scenario.myTurn in
  onData (Scenario.xml GameOverMessage) c =
    (inr tt, set_gameState GAME_OVER c,
     [Emit (EvRaw (Scenario.xml GameOverMessage));
      Emit (EvGameOver (Some {| Player.me := true;
                                Player.nickname := VStr "A" |}))]).
Proof.
  intros c. apply (gameOver_received c). vm_compute. reflexivity.
Defined.

Lemma passive_received_witness :
  let c := Scenario.after Scenario.pending in
  let chat := ChatMessage (VStr "hello") (VStr "B") in
  onData (Scenario.xml chat) c =
    (inr tt, c, [Emit (EvRaw (Scenario.xml chat)); Emit (EvChat chat)]) /\
  onData (Scenario.xml RestartMessage) c =
    (inr tt, c, [Emit (EvRaw (Scenario.xml RestartMessage))]).
Proof.
  intros c chat. split.
  - apply (passive_received c (Scenario.xml chat) chat).
    + vm_compute. reflexivity.
    + left. reflexivity.
  - apply (passive_received c (Scenario.xml RestartMessage) RestartMessage).
    + vm_compute. reflexivity.
    + right. right. reflexivity.
Defined.

Lemma automatic_replies_witness :
  (exists reply,
     filter isSocketWrite (effects (onData (Scenario.xml (NickMessage (VStr "A")))
                                      Peer.b)) = [SocketWrite reply] /\
     typeNumOf reply = inr (VNum 2)) /\
  filter isSocketWrite
    (effects (onData (Scenario.xml (MoveMessage (VNum 2) (VNum 2))) Peer.b)) = [].
Proof.
  split.
  - destruct (@automatic_replies Decimal.platform Decimal_laws Peer.b
                (Scenario.xml (NickMessage (VStr "A"))) (NickMessage (VStr "A")))
      as [H _].
    + vm_compute. reflexivity.
    + vm_compute. discriminate.
    + apply H. reflexivity.
  - destruct (@automatic_replies Decimal.platform Decimal_laws Peer.b
                (Scenario.xml (MoveMessage (VNum 2) (VNum 2)))
                (MoveMessage (VNum 2) (VNum 2)))
      as [_ H].
    + vm_compute. reflexivity.
    + vm_compute. discriminate.
    + apply H. reflexivity.
Defined.

Lemma never_await_response_other_witness :
  _gameState (Scenario.after Scenario.pending) <> AWAIT_RESPONSE_OTHER.
Proof.
  apply never_await_response_other.
  exists "A"%string, Scenario.pending. vm_compute. reflexivity.
Defined.

Lemma leaves_disconnected_only_on_close_witness :
  _gameState (client (perform Disconnect (Scenario.after Scenario.pending))) <>
  DISCONNECTED.
Proof.
  apply leaves_disconnected_only_on_close.
  - discriminate.
  - vm_compute. discriminate.
Defined.

Lemma opponent_is_not_me_witness :
  (forall p, opponent (Scenario.after Scenario.pending) = Some p ->
             Player.me p = false) /\
  (opponent (new_NavalClient "A") <> None ->
   opponent (Scenario.after Scenario.pending) <> None).
Proof.
  apply (opponent_is_not_me Scenario.pending (new_NavalClient "A")).
  - vm_compute. reflexivity.
  - intros p. cbn. discriminate.
Defined.

Lemma unconnected_client_witness :
  let c := client (perform (SendChatMessage "hello") (new_NavalClient "A")) in
  c = new_NavalClient (nickname c).
Proof.
  intros c. apply unconnected_client.
  - exists "A"%string, [SendChatMessage "hello"]. vm_compute. reflexivity.
  - vm_compute. reflexivity.
Defined.

Lemma no_refire_after_resolution_witness :
  let c' := client (onData (Scenario.notification 3 4)
                           (Scenario.after Scenario.pending)) in
  In (3, 4) (firedAt c') /\
  exists message, sendFireAt (3, 4) c' = (inl (Error message), c', []).
Proof.
  apply (no_refire_after_resolution (Scenario.after Scenario.pending) (3, 4)
           (Scenario.notification 3 4) Hit None).
  - vm_compute. left. reflexivity.
  - vm_compute. reflexivity.
Defined.

Lemma respond_sendable_witness :
  let c := Scenario.after Scenario.fired in
  sendMoveResponse (respond (VNum 2) (VNum 2) sink None) c = (inl TypeError, c, []) /\
  exists xmlStr,
    sendMoveResponse (respond (VNum 2) (VNum 2) hit None) c =
      (inr tt, set_gameState FIRE_SHIPS_SELF c, [SocketWrite xmlStr; Emit EvCanFire]).
Proof.
  intros c. split.
  - destruct (respond_sendable c (VNum 2) (VNum 2) sink None) as [H _].
    + vm_compute. reflexivity.
    + vm_compute. discriminate.
    + apply H. split; reflexivity.
  - destruct (respond_sendable c (VNum 2) (VNum 2) hit None) as [_ H].
    + vm_compute. reflexivity.
    + vm_compute. discriminate.
    + destruct H as (xmlStr & _ & H); [left; discriminate|].
      exists xmlStr. exact H.
Defined.

Lemma begin_keeps_pending_shots_witness :
  let c := Scenario.after Scenario.pending in
  let r1 := onData (Scenario.xml BeginMessage) c in
  let r2 := onData (Scenario.notification 3 4) (client r1) in
  firedAt (client r1) = [] /\ firedAt (client r2) = [(3, 4)].
Proof.
  intros c r1 r2.
  destruct (begin_keeps_pending_shots c (Scenario.xml BeginMessage)
              (Scenario.notification 3 4) 3 4 Hit None)
    as (_ & F1 & F2 & _).
  - vm_compute. reflexivity.
  - vm_compute. reflexivity.
  - split; [exact F1|]. fold c r1 r2 in F2. rewrite F2. vm_compute. reflexivity.
Defined.

Lemma fire_exchange_witness :
  let a := Scenario.after Scenario.myTurn in
  exists move notification,
    sendFireAt (3, 4) a =
      (inr tt, set_rawListeners [(3, 4)] a, [SocketWrite move]) /\
    result (onData move Peer.b) = inr tt /\
    firedAt (client (onData notification (set_rawListeners [(3, 4)] a))) = [(3, 4)].
Proof.
  intros a.
  destruct (@fire_exchange Decimal.platform Decimal_laws a Peer.b (3, 4) hit)
    as (move & notification & Hfire & Hmove & _ & _ & _ & Hfired & _).
  - vm_compute. reflexivity.
  - vm_compute. discriminate.
  - vm_compute. intros [].
  - vm_compute. reflexivity.
  - vm_compute. discriminate.
  - discriminate.
  - exists move, notification. split; [exact Hfire|]. split.
    + rewrite Hmove. reflexivity.
    + exact Hfired.
Defined.

Lemma chat_exchange_witness :
  let a := Scenario.after Scenario.begun in
  exists chat,
    sendChatMessage "hello" a = (inr tt, a, [SocketWrite chat]) /\
    onData chat Peer.b =
      (inr tt, Peer.b,
       [Emit (EvRaw chat); Emit (EvChat (ChatMessage (VStr "hello") (VStr "A")))]).
Proof.
  intros a.
  apply (@chat_exchange Decimal.platform Decimal_laws a Peer.b "hello").
  - vm_compute. discriminate.
  - vm_compute. reflexivity.
  - vm_compute. reflexivity.
Defined.

Lemma reconnect_keeps_session_witness :
  let c := Scenario.after Scenario.pending in
  let r := connect 54321 "127.0.0.1" (client (onClose (client (disconnect c)))) in
  result r = inr tt /\
  rawListeners (client r) = [(3, 4)] /\
  _gameState (client r) = DISCONNECTED.
Proof.
  intros c r.
  destruct (reconnect_keeps_session c 54321 "127.0.0.1") as (Hr & _ & Hc).
  - exists "A"%string, Scenario.pending. vm_compute. reflexivity.
  - vm_compute. discriminate.
  - fold c r in Hr, Hc. split; [exact Hr|]. rewrite Hc. split; reflexivity.
Defined.

End MoreComputed.
